(** * Next.js cache plugin for ZenStack: tags, keys, invalidation, date codec

    A shallow embedding of [src/index.ts].  The plugin sits between an ORM
    client and the Next.js data cache: reads are wrapped in [unstable_cache]
    under a key and a list of tags, and a committed mutation invalidates the
    tags of the mutated model and of the models it is related to.

    Layout.  First the model: the JavaScript values and built-ins the plugin
    relies on ([Date], [JSON.stringify], [Object.entries], ...), the schema
    facade, the pure helpers ([generateCacheTags], [generateCacheKey],
    [transformDates], [restoreDates], ...), and the two hooks of
    [createNextjsCachePlugin] over an explicit world (the executor behind
    [proceed], the entries of the data cache, the calls made to the
    collaborators).  Then the schemas and collaborators of the tests, the
    vocabulary of the statements, the examples of the tests, and the
    properties with their proofs: first the ten claims of the
    specification (C1 to C10), then further properties of the helpers and
    of the two hooks (X1 to X25).

    Not modelled: console output of the [log] helper (it never influences a
    result), and the eviction and expiry mechanics of the Next.js store. *)

From Stdlib Require Import ZArith Lia Ascii String List.
From stdpp Require Import base option list strings gmap.
Import ListNotations.
Open Scope string_scope.
Open Scope list_scope.
Open Scope Z_scope.

#[local] Set Warnings "-register-all".
#[local] Unset Default Proof Using.

(* ====================================================================== *)
(** ** JavaScript values *)
(* ====================================================================== *)

(** The values that query arguments, rows and schema attributes carry:
    JSON-like data, [undefined], [Date] objects and decimal.js objects.

    - [JNum]: numbers, restricted to the integer-valued ones (ids, counts).
    - [JDate t]: a [Date] whose time value is [t] milliseconds since the
      epoch; [None] is the Invalid Date (time value NaN).
    - [JDecimal repr own]: an object that passes the structural test of
      [transformDates] (a callable [toFixed] and a property [d]); [repr] is
      what its [toString()] returns and [own] its own enumerable properties.
    - [JObj entries]: a plain object, its own enumerable properties in
      [Object.entries] order (keys are pairwise distinct). *)
Inductive JsValue : Type :=
| JUndefined
| JNull
| JBool (b : bool)
| JNum (n : Z)
| JStr (s : string)
| JDate (t : option Z)
| JDecimal (repr : string) (own : list (string * JsValue))
| JArr (items : list JsValue)
| JObj (entries : list (string * JsValue)).

(** What a [throw] or a rejected promise carries. *)
Inductive JsError : Type :=
| RangeError (message : string)
| Unavailable (what : string)
| Rejected (reason : JsValue).

(** The outcome of evaluating an expression that may throw. *)
Inductive Completion (A : Type) : Type :=
| Normal (a : A)
| Throw (e : JsError).
Arguments Normal {A} a.
Arguments Throw {A} e.

Definition cbind {A B : Type} (c : Completion A) (k : A -> Completion B) : Completion B :=
  match c with
  | Normal a => k a
  | Throw e => Throw e
  end.

(** [Array.prototype.map] with a callback that may throw: elements are
    visited left to right and the first exception aborts the walk. *)
Fixpoint cmap {A B : Type} (f : A -> Completion B) (l : list A) : Completion (list B) :=
  match l with
  | [] => Normal []
  | x :: rest =>
      cbind (f x) (fun y => cbind (cmap f rest) (fun ys => Normal (y :: ys)))
  end.

(** ToBoolean. *)
Definition truthy (v : JsValue) : bool :=
  match v with
  | JUndefined | JNull => false
  | JBool b => b
  | JNum n => negb (n =? 0)
  | JStr s => negb (String.eqb s "")
  | JDate _ | JDecimal _ _ | JArr _ | JObj _ => true
  end.

(** [typeof v === 'object'] (true for [null]). *)
Definition typeof_object (v : JsValue) : bool :=
  match v with
  | JNull | JDate _ | JDecimal _ _ | JArr _ | JObj _ => true
  | JUndefined | JBool _ | JNum _ | JStr _ => false
  end.

Definition Array_isArray (v : JsValue) : bool :=
  match v with
  | JArr _ => true
  | _ => false
  end.

(** Lookup in a list of entries (the first entry under the key). *)
Fixpoint assoc {A : Type} (k : string) (l : list (string * A)) : option A :=
  match l with
  | [] => None
  | (k', a) :: rest => if String.eqb k k' then Some a else assoc k rest
  end.

(** The character of the last decimal digit of [n]. *)
Definition digit_char (n : Z) : ascii := ascii_of_N (48 + Z.to_N (n mod 10)).

(** The decimal digits of [n >= 0] in front of [acc]; [fuel] bounds their
    number. *)
Fixpoint digits_fuel (fuel : nat) (n : Z) (acc : string) : string :=
  match fuel with
  | O => acc
  | S fuel' =>
      let acc' := String (digit_char n) acc in
      if n <? 10 then acc' else digits_fuel fuel' (n / 10) acc'
  end.

(** Number::toString for an integer-valued number. *)
Definition Number_toString (n : Z) : string :=
  let a := Z.abs n in
  let ds := digits_fuel (S (Z.to_nat (Z.log2 a))) a "" in
  if n <? 0 then "-" +:+ ds else ds.

(** [Object.entries]: own enumerable string-keyed properties.  An array
    lists its indices, a [Date] has none. *)
Definition index_entries {A : Type} (l : list A) : list (string * A) :=
  imap (fun i x => (Number_toString (Z.of_nat i), x)) l.

Definition Object_entries (v : JsValue) : list (string * JsValue) :=
  match v with
  | JObj entries => entries
  | JDecimal _ own => own
  | JArr items => index_entries items
  | _ => []
  end.

(** Property read [v.key] for the keys the plugin reads ([where], [id],
    [include], [select]); none of them is found on a prototype. *)
Definition get (v : JsValue) (key : string) : JsValue :=
  match v with
  | JObj entries => default JUndefined (assoc key entries)
  | JDecimal _ own => default JUndefined (assoc key own)
  | _ => JUndefined
  end.

(** ['key' in v] for an object [v]. *)
Definition has_property (key : string) (v : JsValue) : bool :=
  match v with
  | JObj entries => bool_decide (is_Some (assoc key entries))
  | JDecimal _ own => bool_decide (is_Some (assoc key own))
  | _ => false
  end.

(** [String.prototype.toLowerCase] on ASCII text (model names are
    identifiers). *)
Definition Ascii_toLowerCase (c : ascii) : ascii :=
  let n := N_of_ascii c in
  if ((65 <=? n) && (n <=? 90))%N then ascii_of_N (n + 32) else c.

Fixpoint String_toLowerCase (s : string) : string :=
  match s with
  | EmptyString => EmptyString
  | String c rest => String (Ascii_toLowerCase c) (String_toLowerCase rest)
  end.

(* ====================================================================== *)
(** ** Dates: time values, ISO strings *)
(* ====================================================================== *)

(** ECMAScript's day arithmetic on a time value (milliseconds since
    1970-01-01T00:00:00Z, proleptic Gregorian calendar). *)
Definition msPerDay : Z := 86400000.
Definition Day (t : Z) : Z := t / msPerDay.
Definition HourFromTime (t : Z) : Z := (t / 3600000) mod 24.
Definition MinFromTime (t : Z) : Z := (t / 60000) mod 60.
Definition SecFromTime (t : Z) : Z := (t / 1000) mod 60.
Definition msFromTime (t : Z) : Z := t mod 1000.

(** The calendar is periodic in eras of 400 years (146097 days) that start
    on 1 March.  For a day of the era: the year of the era (January and
    February count with the next year), the month (1-12) and the day of the
    month (1-31). *)
Definition civil_of_era_day (doe : Z) : Z * Z * Z :=
  let yoe := (doe - doe / 1460 + doe / 36524 - doe / 146096) / 365 in
  let doy := doe - (365 * yoe + yoe / 4 - yoe / 100) in
  let mp := (5 * doy + 2) / 153 in
  let d := doy - (153 * mp + 2) / 5 + 1 in
  let m := if mp <? 10 then mp + 3 else mp - 9 in
  (yoe + (if m <=? 2 then 1 else 0), m, d).

(** Year, month and day of month of a day number (days since the epoch). *)
Definition civil_from_days (day : Z) : Z * Z * Z :=
  let z := day + 719468 in
  let '(y, m, d) := civil_of_era_day (z mod 146097) in
  (y + (z / 146097) * 400, m, d).

(** MakeDay: the day number of a calendar date. *)
Definition days_from_civil (y m d : Z) : Z :=
  let y' := if m <=? 2 then y - 1 else y in
  let era := y' / 400 in
  let yoe := y' mod 400 in
  let mp := if m <=? 2 then m + 9 else m - 3 in
  let doy := (153 * mp + 2) / 5 + d - 1 in
  let doe := yoe * 365 + yoe / 4 - yoe / 100 + doy in
  era * 146097 + doe - 719468.

Definition YearFromTime (t : Z) : Z := (civil_from_days (Day t)).1.1.

Definition is_leap_year (y : Z) : bool :=
  ((y mod 4 =? 0) && negb (y mod 100 =? 0)) || (y mod 400 =? 0).

Definition days_in_month (y m : Z) : Z :=
  if m =? 2 then (if is_leap_year y then 29 else 28)
  else if (m =? 4) || (m =? 6) || (m =? 9) || (m =? 11) then 30
  else 31.

(** [n] written with exactly [width] decimal digits (its low digits). *)
Fixpoint pad (width : nat) (n : Z) : string :=
  match width with
  | O => ""
  | S w => pad w (n / 10) +:+ String (digit_char n) ""
  end.

Definition year_string (y : Z) : string :=
  if (0 <=? y) && (y <=? 9999) then pad 4 y
  else (if y <? 0 then "-" else "+") +:+ pad 6 (Z.abs y).

(** The text [Date.prototype.toISOString] produces for a finite time value:
    [YYYY-MM-DDTHH:mm:ss.sssZ], the year expanded to a sign and six digits
    outside 0..9999. *)
Definition ISOString_of_time (t : Z) : string :=
  let '(y, m, d) := civil_from_days (Day t) in
  year_string y +:+ "-" +:+ pad 2 m +:+ "-" +:+ pad 2 d +:+ "T" +:+
  pad 2 (HourFromTime t) +:+ ":" +:+ pad 2 (MinFromTime t) +:+ ":" +:+
  pad 2 (SecFromTime t) +:+ "." +:+ pad 3 (msFromTime t) +:+ "Z".

(** [Date.prototype.toISOString]: a RangeError on the Invalid Date. *)
Definition Date_toISOString (d : option Z) : Completion string :=
  match d with
  | Some t => Normal (ISOString_of_time t)
  | None => Throw (RangeError "Invalid time value")
  end.

(** *** The pattern [ISO_DATE_REGEX] *)

Inductive PatternItem : Type :=
| Digit              (* \d *)
| Lit (c : ascii).   (* a literal character *)

Definition is_digit (c : ascii) : bool :=
  let n := N_of_ascii c in ((48 <=? n) && (n <=? 57))%N.

(** [pattern] matches a prefix of [s] (a regular expression anchored with
    [^] whose items each consume one character). *)
Fixpoint matches_prefix (pattern : list PatternItem) (s : string) : bool :=
  match pattern, s with
  | [], _ => true
  | _ :: _, EmptyString => false
  | Digit :: pattern', String c s' => is_digit c && matches_prefix pattern' s'
  | Lit a :: pattern', String c s' => Ascii.eqb a c && matches_prefix pattern' s'
  end.

(** [/^\d{4}-\d{2}-\d{2}T\d{2}:\d{2}:\d{2}/] *)
Definition ISO_DATE_REGEX : list PatternItem :=
  [Digit; Digit; Digit; Digit; Lit "-"; Digit; Digit; Lit "-"; Digit; Digit; Lit "T";
   Digit; Digit; Lit ":"; Digit; Digit; Lit ":"; Digit; Digit].

Definition RegExp_test (pattern : list PatternItem) (s : string) : bool :=
  matches_prefix pattern s.

(** *** Parsing the Date Time String Format *)

Definition digit_value (c : ascii) : option Z :=
  if is_digit c then Some (Z.of_N (N_of_ascii c) - 48) else None.

(** Reads exactly [n] digits off the front of [s]. *)
Fixpoint read_digits (n : nat) (acc : Z) (s : string) : option (Z * string) :=
  match n with
  | O => Some (acc, s)
  | S n' =>
      match s with
      | EmptyString => None
      | String c s' =>
          match digit_value c with
          | Some d => read_digits n' (10 * acc + d) s'
          | None => None
          end
      end
  end.

Definition read_char (a : ascii) (s : string) : option string :=
  match s with
  | String c s' => if Ascii.eqb a c then Some s' else None
  | EmptyString => None
  end.

(** The time value of a string in the full UTC form
    [YYYY-MM-DDTHH:mm:ss.sssZ] whose elements are in range; [None] for
    any other string.  Every ECMAScript engine parses these strings to this
    value. *)
Definition Date_parse_utc (s : string) : option Z :=
  '(y, s) ← read_digits 4 0 s;
  s ← read_char "-" s;
  '(m, s) ← read_digits 2 0 s;
  s ← read_char "-" s;
  '(d, s) ← read_digits 2 0 s;
  s ← read_char "T" s;
  '(hh, s) ← read_digits 2 0 s;
  s ← read_char ":" s;
  '(mm, s) ← read_digits 2 0 s;
  s ← read_char ":" s;
  '(ss, s) ← read_digits 2 0 s;
  s ← read_char "." s;
  '(ms, s) ← read_digits 3 0 s;
  s ← read_char "Z" s;
  if String.eqb s "" && (1 <=? m) && (m <=? 12) && (1 <=? d) && (d <=? days_in_month y m)
     && (hh <=? 23) && (mm <=? 59) && (ss <=? 59)
  then Some (days_from_civil y m d * msPerDay + hh * 3600000 + mm * 60000 + ss * 1000 + ms)
  else None.

(* ====================================================================== *)
(** ** JSON.stringify *)
(* ====================================================================== *)

Definition quote_char : ascii := ascii_of_N 34.
Definition backslash_char : ascii := ascii_of_N 92.

Definition hex_char (n : N) : ascii :=
  if (n <? 10)%N then ascii_of_N (48 + n) else ascii_of_N (87 + n).

(** QuoteJSONString, one character at a time. *)
Definition json_escape (c : ascii) : string :=
  let n := N_of_ascii c in
  if (n =? 34)%N then String backslash_char (String quote_char "")
  else if (n =? 92)%N then String backslash_char (String backslash_char "")
  else if (n =? 8)%N then String backslash_char "b"
  else if (n =? 9)%N then String backslash_char "t"
  else if (n =? 10)%N then String backslash_char "n"
  else if (n =? 12)%N then String backslash_char "f"
  else if (n =? 13)%N then String backslash_char "r"
  else if (n <? 32)%N then
    String backslash_char ("u00" +:+ String (hex_char (n / 16)) (String (hex_char (n mod 16)) ""))
  else String c "".

Fixpoint json_escape_string (s : string) : string :=
  match s with
  | EmptyString => EmptyString
  | String c rest => json_escape c +:+ json_escape_string rest
  end.

Definition json_quote (s : string) : string :=
  String quote_char (json_escape_string s +:+ String quote_char "").

Fixpoint join (sep : string) (l : list string) : string :=
  match l with
  | [] => ""
  | [x] => x
  | x :: rest => x +:+ sep +:+ join sep rest
  end.

(** [JSON.stringify v]; [None] stands for the result [undefined].  A Date
    serialises through [toJSON] (its ISO string, [null] when invalid), a
    decimal through its [toJSON] (its string), an [undefined] array element
    as [null], and a property whose value is [undefined] is left out. *)
Fixpoint JSON_stringify (v : JsValue) : option string :=
  match v with
  | JUndefined => None
  | JNull => Some "null"
  | JBool b => Some (if b then "true" else "false")
  | JNum n => Some (Number_toString n)
  | JStr s => Some (json_quote s)
  | JDate (Some t) => Some (json_quote (ISOString_of_time t))
  | JDate None => Some "null"
  | JDecimal repr _ => Some (json_quote repr)
  | JArr items =>
      Some ("[" +:+ join "," (map (fun x => default "null" (JSON_stringify x)) items) +:+ "]")
  | JObj entries =>
      Some ("{" +:+ join ","
              (omap (fun kv : string * JsValue =>
                       (fun s => json_quote kv.1 +:+ ":" +:+ s) <$> JSON_stringify kv.2)
                    entries) +:+ "}")
  end.

(** Template-literal conversion [`${v}`] (ToString).  The text of a valid
    [Date] depends on the host's time zone and is a parameter. *)
Fixpoint ToString (Date_toString : Z -> string) (v : JsValue) : string :=
  match v with
  | JUndefined => "undefined"
  | JNull => "null"
  | JBool b => if b then "true" else "false"
  | JNum n => Number_toString n
  | JStr s => s
  | JDate (Some t) => Date_toString t
  | JDate None => "Invalid Date"
  | JDecimal repr _ => repr
  | JArr items =>
      join "," (map (fun x => match x with
                              | JUndefined | JNull => ""
                              | _ => ToString Date_toString x
                              end) items)
  | JObj _ => "[object Object]"
  end.

(* ====================================================================== *)
(** ** The schema facade *)
(* ====================================================================== *)

Record RelationInfo : Type := {
  r_opposite : option string;
  r_fields : option (list string);
  r_references : option (list string)
}.

Record FieldDefinition : Type := {
  f_name : string;
  f_type : string;
  f_relation : option RelationInfo
}.

Record AttributeArg : Type := {
  arg_name : string;
  arg_value : JsValue
}.

Record ModelAttribute : Type := {
  a_name : string;
  a_args : option (list AttributeArg)
}.

(** [m_fields] keeps the order of [Object.entries]; field names are
    pairwise distinct. *)
Record ModelDefinition : Type := {
  m_name : string;
  m_fields : option (list (string * FieldDefinition));
  m_attributes : option (list ModelAttribute)
}.

(** [schema.models] of the generated module [zenstack/schema]. *)
Abbreviation Schema := (gmap string ModelDefinition).

(** The options of [createNextjsCachePlugin], each possibly absent.  A tag
    generator is a function that computes a new array on each call. *)
Record NextjsCachePluginOptions : Type := {
  defaultCacheLife : option string;
  excludeModels : option (list string);
  debug : option bool;
  customTagGenerator : option (string -> option string -> list string)
}.

Definition no_options : NextjsCachePluginOptions :=
  {| defaultCacheLife := None; excludeModels := None; debug := None;
     customTagGenerator := None |}.

(** [CacheLifeProfile] to seconds. *)
Definition getCacheRevalidateSeconds (profile : string) : Z :=
  if String.eqb profile "seconds" then 1
  else if String.eqb profile "minutes" then 60
  else if String.eqb profile "hours" then 3600
  else if String.eqb profile "days" then 86400
  else if String.eqb profile "weeks" then 604800
  else if String.eqb profile "max" then 31536000
  else 3600.

Definition READ_OPERATIONS : list string :=
  ["findMany"; "findUnique"; "findFirst"; "findUniqueOrThrow"; "findFirstOrThrow";
   "count"; "aggregate"; "groupBy"].

Definition includes (l : list string) (s : string) : bool :=
  existsb (String.eqb s) l.

Definition isReadOperation (operation : string) : bool :=
  includes READ_OPERATIONS operation.

(** Cache tags from a model name and an id. *)
Definition generateCacheTags (modelName : string) (id : option string)
    (tagGenerator : option (string -> option string -> list string)) : list string :=
  match tagGenerator with
  | Some g => g modelName id
  | None =>
      let modelLower := String_toLowerCase modelName in
      let tags := [modelLower +:+ ":list"] in
      match id with
      | Some i => if truthy (JStr i) then tags ++ [modelLower +:+ ":" +:+ i] else tags
      | None => tags
      end
  end.

(** The id of a query's [where] clause. *)
Definition extractIdFromArgs (queryArgs : JsValue) : option string :=
  if negb (truthy queryArgs) || negb (typeof_object queryArgs) then None
  else
    let where_ := get queryArgs "where" in
    if truthy where_ && typeof_object where_ then
      match get where_ "id" with
      | JStr s => Some s
      | JNum n => Some (Number_toString n)
      | _ => None
      end
    else None.

(** The cache key: the base key, and the JSON text of the arguments when
    they are an object ([JSON.stringify] of an object is a string). *)
Definition generateCacheKey (model operation : string) (queryArgs : JsValue)
    (userId : option string) : list string :=
  let userPrefix :=
    match userId with
    | Some u => if truthy (JStr u) then "user:" +:+ u +:+ ":" else ""
    | None => ""
    end in
  let baseKey := userPrefix +:+ String_toLowerCase model +:+ ":" +:+ operation in
  if negb (truthy queryArgs) || negb (typeof_object queryArgs) then [baseKey]
  else
    match JSON_stringify queryArgs with
    | Some argsStr => [baseKey; argsStr]
    | None => [baseKey]
    end.

(** Date and decimal values to strings, recursively.  [toISOString] throws
    on the Invalid Date. *)
Fixpoint transformDates (obj : JsValue) : Completion JsValue :=
  match obj with
  | JNull | JUndefined => Normal obj
  | JDate t => cbind (Date_toISOString t) (fun s => Normal (JStr s))
  | JDecimal repr _ => Normal (JStr repr)
  | JArr items => cbind (cmap transformDates items) (fun items' => Normal (JArr items'))
  | JObj entries =>
      cbind (cmap (fun kv : string * JsValue =>
                     cbind (transformDates kv.2) (fun v' => Normal (kv.1, v')))
                  entries)
            (fun entries' => Normal (JObj entries'))
  | JBool _ | JNum _ | JStr _ => Normal obj
  end.

Section Facade.

(** The imported schema. *)
Context (schema : Schema).

Definition getModelAttributes (modelName : string) : list ModelAttribute :=
  default [] (schema !! modelName ≫= m_attributes).

Definition getModelFields (modelName : string) : list (string * FieldDefinition) :=
  default [] (schema !! modelName ≫= m_fields).

(** Names of the fields of type DateTime. *)
Definition getDateTimeFields (modelName : string) : gset string :=
  foldl (fun (dateTimeFields : gset string) (entry : string * FieldDefinition) =>
           if String.eqb (f_type entry.2) "DateTime"
           then dateTimeFields ∪ {[entry.1]} else dateTimeFields)
        ∅ (getModelFields modelName).

(** Names of the fields of type Decimal. *)
Definition getDecimalFields (modelName : string) : gset string :=
  foldl (fun (decimalFields : gset string) (entry : string * FieldDefinition) =>
           if String.eqb (f_type entry.2) "Decimal"
           then decimalFields ∪ {[entry.1]} else decimalFields)
        ∅ (getModelFields modelName).

(** The target model of every relation field, in field order. *)
Definition getRelatedModels (modelName : string) : list string :=
  foldl (fun (relatedModels : list string) (entry : string * FieldDefinition) =>
           match f_relation entry.2 with
           | Some _ => relatedModels ++ [f_type entry.2]
           | None => relatedModels
           end)
        [] (getModelFields modelName).

Definition hasExcludeAttribute (modelName : string) : bool :=
  existsb (fun attr => String.eqb (a_name attr) "@@cache.exclude") (getModelAttributes modelName).

(** [attr?.args?.[0]?.value] *)
Definition first_arg_value (attr : option ModelAttribute) : JsValue :=
  match attr with
  | Some a =>
      match a_args a with
      | Some (arg :: _) => arg_value arg
      | _ => JUndefined
      end
  | None => JUndefined
  end.

Definition string_items (items : list JsValue) : list string :=
  omap (fun v => match v with JStr s => Some s | _ => None end) items.

(** The tags of the attribute [@@cache.tags]. *)
Definition getCustomTags (modelName : string) : option (list string) :=
  let attributes := getModelAttributes modelName in
  let tagsAttr := find (fun attr => String.eqb (a_name attr) "@@cache.tags") attributes in
  let value := first_arg_value tagsAttr in
  if negb (truthy value) then None
  else
    match value with
    | JArr items => Some (string_items items)
    | _ => None
    end.

(** The profile of the attribute [@@cache.life]. *)
Definition getCustomLife (modelName : string) : option string :=
  let attributes := getModelAttributes modelName in
  let lifeAttr := find (fun attr => String.eqb (a_name attr) "@@cache.life") attributes in
  let value := first_arg_value lifeAttr in
  if negb (truthy value) then None
  else
    match value with
    | JStr s =>
        if includes ["seconds"; "minutes"; "hours"; "days"; "weeks"; "max"] s
        then Some s else None
    | _ => None
    end.

(** [fields[fieldName]?.relation] is present. *)
Definition relation_field (fields : list (string * FieldDefinition)) (fieldName : string)
  : option FieldDefinition :=
  match assoc fieldName fields with
  | Some field => if is_Some_dec (f_relation field) then Some field else None
  | None => None
  end.

(** The models a query reaches through [include] and [select]. *)
Definition extractIncludedRelations (queryArgs : JsValue) (modelName : string) : list string :=
  if negb (truthy queryArgs) || negb (typeof_object queryArgs) then []
  else
    let fields := getModelFields modelName in
    let include := get queryArgs "include" in
    let fromInclude :=
      if truthy include && typeof_object include then
        foldl (fun (includedModels : list string) (entry : string * JsValue) =>
                 match relation_field fields entry.1 with
                 | Some field =>
                     if truthy entry.2 then includedModels ++ [f_type field]
                     else includedModels
                 | None => includedModels
                 end)
              [] (Object_entries include)
      else [] in
    let select := get queryArgs "select" in
    if truthy select && typeof_object select then
      foldl (fun (includedModels : list string) (entry : string * JsValue) =>
               match relation_field fields entry.1 with
               | Some field =>
                   if truthy entry.2 && typeof_object entry.2
                   then includedModels ++ [f_type field]
                   else includedModels
               | None => includedModels
               end)
            fromInclude (Object_entries select)
    else fromInclude.

(** The environment of [restoreDates]: the [Date] constructor applied to a
    string ([None]: Invalid Date), and the [Decimal] class of the Prisma
    runtime when [require] finds it; its constructor may throw. *)
Context (Date_parse : string -> option Z).
Context (RuntimeDecimal : option (JsValue -> Completion JsValue)).

(** One property of a cached object, restored under [modelName]. *)
Definition restore_entry
    (restore : JsValue -> string -> Completion JsValue)
    (dateTimeFields decimalFields : gset string)
    (fields : list (string * FieldDefinition))
    (PrismaDecimal : option (JsValue -> Completion JsValue))
    (key : string) (value : JsValue) : Completion JsValue :=
  let is_iso_string :=
    match value with
    | JStr s => RegExp_test ISO_DATE_REGEX s
    | _ => false
    end in
  let is_string_or_number :=
    match value with
    | JStr _ | JNum _ => true
    | _ => false
    end in
  if bool_decide (key ∈ dateTimeFields) && is_iso_string then
    match value with
    | JStr s => Normal (JDate (Date_parse s))
    | _ => Normal value
    end
  else if bool_decide (key ∈ decimalFields) && is_string_or_number then
    match PrismaDecimal with
    | Some construct => construct value
    | None => Normal value
    end
  else
    match relation_field fields key, value with
    | Some _, (JNull | JUndefined) => Normal value
    | Some field, _ => restore value (f_type field)
    | None, _ => Normal value
    end.

(** ISO strings back to [Date], decimal strings back to [Decimal],
    following the fields of [modelName] and of the related models. *)
Fixpoint restoreTypesInternal (obj : JsValue) (modelName : string)
    (PrismaDecimal : option (JsValue -> Completion JsValue)) {struct obj} : Completion JsValue :=
  let restore_object := fun (entries : list (string * JsValue)) =>
    let dateTimeFields := getDateTimeFields modelName in
    let decimalFields := getDecimalFields modelName in
    let fields := getModelFields modelName in
    cbind (cmap (fun kv : string * JsValue =>
                   cbind (restore_entry
                            (fun value relatedModel =>
                               restoreTypesInternal value relatedModel PrismaDecimal)
                            dateTimeFields decimalFields fields PrismaDecimal kv.1 kv.2)
                         (fun v' => Normal (kv.1, v')))
                entries)
          (fun entries' => Normal (JObj entries')) in
  match obj with
  | JNull | JUndefined => Normal obj
  | JArr items =>
      cbind (cmap (fun item => restoreTypesInternal item modelName PrismaDecimal) items)
            (fun items' => Normal (JArr items'))
  | JObj entries => restore_object entries
  | JDecimal _ own => restore_object own
  | JDate _ => restore_object []
  | JBool _ | JNum _ | JStr _ => Normal obj
  end.

Definition restoreDates (obj : JsValue) (modelName : string) : Completion JsValue :=
  restoreTypesInternal obj modelName RuntimeDecimal.

End Facade.

(* ====================================================================== *)
(** ** The world of the hooks *)
(* ====================================================================== *)

(** What the module [next/cache] offers in the current execution context:
    whether the dynamic import resolves and whether each function can run
    (outside a request [unstable_cache] and [revalidateTag] throw, outside
    a Server Action [updateTag] throws, an absent export is not callable). *)
Record NextCache : Type := {
  import_resolves : bool;
  unstable_cache_runs : bool;
  updateTag_runs : bool;
  revalidateTag_runs : bool
}.

Record CacheEntry : Type := {
  entry_key : list string;
  entry_value : JsValue;
  entry_revalidate : Z;
  entry_tags : list string
}.

(** The calls that reached a collaborator, oldest first. *)
Inductive Call : Type :=
| Call_proceed (queryArgs : JsValue)
| Call_loadEntities
| Call_unstable_cache (keyParts : list string) (revalidate : Z) (tags : list string)
| Call_updateTag (tag : string)
| Call_revalidateTag (tag : string) (profile : string).

(** The state a hook runs in: the executor behind [proceed] (its state is
    of any type [E]), the entries of the data cache, and the calls made. *)
Record World (E : Type) : Type := {
  executor : E;
  store : list CacheEntry;
  calls : list Call
}.
Arguments executor {E} w.
Arguments store {E} w.
Arguments calls {E} w.

(** An asynchronous computation, awaited to completion: it transforms the
    world and resolves or rejects. *)
Definition Action (E A : Type) : Type := World E -> Completion A * World E.

Definition ret {E A : Type} (a : A) : Action E A := fun w => (Normal a, w).

Definition lift {E A : Type} (c : Completion A) : Action E A := fun w => (c, w).

Definition abind {E A B : Type} (m : Action E A) (k : A -> Action E B) : Action E B :=
  fun w =>
    match m w with
    | (Normal a, w') => k a w'
    | (Throw e, w') => (Throw e, w')
    end.

Notation "'let*' x ':=' m 'in' k" := (abind m (fun x => k))
  (at level 10, x name, m at level 100, k at level 200).
Notation "m ';;' k" := (abind m (fun _ => k))
  (at level 100, k at level 200, right associativity).

(** [try { body } catch (e) { handler }]: what [body] did to the world
    before it threw stays done. *)
Definition try_catch {E A : Type} (body : Action E A) (handler : JsError -> Action E A)
  : Action E A :=
  fun w =>
    match body w with
    | (Normal a, w') => (Normal a, w')
    | (Throw e, w') => handler e w'
    end.

(** [for (const x of l) { await body(x) }] *)
Fixpoint for_of {E A : Type} (l : list A) (body : A -> Action E unit) : Action E unit :=
  match l with
  | [] => ret tt
  | x :: rest => body x ;; for_of rest body
  end.

Definition record_call {E : Type} (c : Call) (w : World E) : World E :=
  {| executor := executor w; store := store w; calls := calls w ++ [c] |}.

(** A call into the ORM ([proceed], the row loader): it runs against the
    executor and is recorded. *)
Definition call_executor {E : Type} (c : Call) (run : E -> Completion JsValue * E)
  : Action E JsValue :=
  fun w =>
    let '(result, e') := run (executor w) in
    (result, {| executor := e'; store := store w; calls := calls w ++ [c] |}).

Definition lookup_entry (keyParts : list string) (entries : list CacheEntry) : option CacheEntry :=
  find (fun entry => bool_decide (entry_key entry = keyParts)) entries.

Section NextCacheModule.

Context {E : Type} (next : NextCache).

(** [await import('next/cache')] *)
Definition import_next_cache : Action E unit :=
  if import_resolves next then ret tt
  else lift (Throw (Unavailable "next/cache")).

(** [unstable_cache(cb, keyParts, { revalidate, tags })()]: the entry
    stored under the key, else the result of [cb], stored when [cb]
    resolves.  A rejection of [cb] is passed on and nothing is stored. *)
Definition unstable_cache (cb : Action E JsValue) (keyParts : list string)
    (revalidate : Z) (tags : list string) : Action E JsValue :=
  fun w =>
    if negb (unstable_cache_runs next) then (Throw (Unavailable "unstable_cache"), w)
    else
      let w1 := record_call (Call_unstable_cache keyParts revalidate tags) w in
      match lookup_entry keyParts (store w1) with
      | Some entry => (Normal (entry_value entry), w1)
      | None =>
          match cb w1 with
          | (Normal v, w2) =>
              (Normal v,
               {| executor := executor w2;
                  store := {| entry_key := keyParts; entry_value := v;
                              entry_revalidate := revalidate; entry_tags := tags |}
                           :: store w2;
                  calls := calls w2 |})
          | (Throw e, w2) => (Throw e, w2)
          end
      end.

Definition updateTag (tag : string) : Action E unit :=
  fun w =>
    if updateTag_runs next then (Normal tt, record_call (Call_updateTag tag) w)
    else (Throw (Unavailable "updateTag"), w).

Definition revalidateTag (tag profile : string) : Action E unit :=
  fun w =>
    if revalidateTag_runs next then (Normal tt, record_call (Call_revalidateTag tag profile) w)
    else (Throw (Unavailable "revalidateTag"), w).

(** Invalidates a tag: [updateTag] first (immediate), [revalidateTag]
    (stale-while-revalidate) when that fails; a second failure is dropped. *)
Definition invalidateTag (tag : string) : Action E unit :=
  try_catch
    (import_next_cache ;; updateTag tag)
    (fun _ =>
       try_catch
         (import_next_cache ;; revalidateTag tag "max")
         (fun _ => ret tt)).

Context (Date_toString : Z -> string).

(** Invalidates the list tag of [model] and the tag of every loaded row
    that has an [id]. *)
Definition invalidateCacheForModel (model : string)
    (loadEntities : E -> Completion JsValue * E) : Action E unit :=
  try_catch
    (let listTag := String_toLowerCase model +:+ ":list" in
     invalidateTag listTag ;;
     let* entities := call_executor Call_loadEntities loadEntities in
     match entities with
     | JArr rows =>
         for_of rows (fun entity =>
           if truthy entity && typeof_object entity && has_property "id" entity then
             let entityTag :=
               String_toLowerCase model +:+ ":" +:+ ToString Date_toString (get entity "id") in
             invalidateTag entityTag
           else ret tt)
     | _ => ret tt
     end)
    (fun _ => ret tt).

(** Invalidates the list tag of a related model. *)
Definition invalidateRelatedModelCache (model : string) : Action E unit :=
  try_catch
    (let listTag := String_toLowerCase model +:+ ":list" in
     invalidateTag listTag)
    (fun _ => ret tt).

End NextCacheModule.

(* ====================================================================== *)
(** ** createNextjsCachePlugin *)
(* ====================================================================== *)

(** [client.$auth] *)
Record AuthUser : Type := { auth_id : option string }.

(** The context the ORM passes to [onQuery]. *)
Record QueryContext (E : Type) : Type := {
  model : string;
  operation : string;
  args : JsValue;
  proceed : JsValue -> E -> Completion JsValue * E;
  client_auth : option AuthUser
}.
Arguments model {E} q.
Arguments operation {E} q.
Arguments args {E} q.
Arguments proceed {E} q.
Arguments client_auth {E} q.

(** The arguments of [afterEntityMutation]. *)
Record MutationArgs (E : Type) : Type := {
  mutated_model : string;
  loadAfterMutationEntities : E -> Completion JsValue * E
}.
Arguments mutated_model {E} m.
Arguments loadAfterMutationEntities {E} m.

Section Plugin.

Context (schema : Schema).
Context (Date_parse : string -> option Z).
Context (RuntimeDecimal : option (JsValue -> Completion JsValue)).
Context (Date_toString : Z -> string).
Context (options : NextjsCachePluginOptions).

(** Excluded by the options or by the attribute [@@cache.exclude]. *)
Definition isExcludedModel (model : string) : bool :=
  if includes (default [] (excludeModels options)) model then true
  else if hasExcludeAttribute schema model then true
  else false.

(** The tags of a model: the custom generator, else the tags of
    [@@cache.tags], else the default ones. *)
Definition getTagsForModel (model : string) (id : option string) : list string :=
  match customTagGenerator options with
  | Some generator => generator model id
  | None =>
      match getCustomTags schema model with
      | Some ((_ :: _) as customTags) =>
          match id with
          | Some i =>
              if truthy (JStr i)
              then customTags ++ [String_toLowerCase model +:+ ":" +:+ i]
              else customTags
          | None => customTags
          end
      | _ => generateCacheTags model id None
      end
  end.

Definition getLifeForModel (model : string) : string :=
  match getCustomLife schema model with
  | Some customLife => customLife
  | None => default "hours" (defaultCacheLife options)
  end.

(** The tags of a read (onQuery, the lines that build [tags]): the tags
    of the model, then the list tag of every related model the query
    includes, excluded models left out. *)
Definition readTags (model : string) (queryArgs : JsValue) : list string :=
  let id := extractIdFromArgs queryArgs in
  let tags := getTagsForModel model id in
  let includedRelations := extractIncludedRelations schema queryArgs model in
  foldl (fun (tags : list string) (relatedModel : string) =>
           if negb (isExcludedModel relatedModel)
           then tags ++ [String_toLowerCase relatedModel +:+ ":list"]
           else tags)
        tags includedRelations.

Context {E : Type} (next : NextCache).

(** The query hook. *)
Definition onQuery (ctx : QueryContext E) : Action E JsValue :=
  let model := model ctx in
  let operation := operation ctx in
  let queryArgs := args ctx in
  let proceed := fun a => call_executor (Call_proceed a) (proceed ctx a) in
  if isExcludedModel model then proceed queryArgs
  else
    let userId := client_auth ctx ≫= auth_id in
    if isReadOperation operation then
      let tags := readTags model queryArgs in
      let life := getLifeForModel model in
      let revalidateSeconds := getCacheRevalidateSeconds life in
      let cacheKey := generateCacheKey model operation queryArgs userId in
      try_catch
        (import_next_cache next ;;
         let cachedQuery :=
           unstable_cache next
             (let* result := proceed queryArgs in
              lift (transformDates result))
             cacheKey revalidateSeconds tags in
         let* cachedResult := cachedQuery in
         lift (restoreDates schema Date_parse RuntimeDecimal cachedResult model))
        (fun _ =>
           let* result := proceed queryArgs in
           let* transformed := lift (transformDates result) in
           lift (restoreDates schema Date_parse RuntimeDecimal transformed model))
    else proceed queryArgs.

(** The hook that runs after a committed mutation. *)
Definition afterEntityMutation (args : MutationArgs E) : Action E unit :=
  let model := mutated_model args in
  invalidateCacheForModel next Date_toString model (loadAfterMutationEntities args) ;;
  let relatedModels := getRelatedModels schema model in
  for_of relatedModels (fun relatedModel =>
    if negb (isExcludedModel relatedModel)
    then invalidateRelatedModelCache next relatedModel
    else ret tt).

End Plugin.

(* ====================================================================== *)
(** ** Fixtures: the schemas and collaborators of the tests *)
(* ====================================================================== *)

Definition scalar_field (name type : string) : string * FieldDefinition :=
  (name, {| f_name := name; f_type := type; f_relation := None |}).

Definition relation_to (name type opposite : string) (fields references : list string)
  : string * FieldDefinition :=
  (name, {| f_name := name; f_type := type;
            f_relation := Some {| r_opposite := Some opposite; r_fields := Some fields;
                                  r_references := Some references |} |}).

Definition model_def (name : string) (attributes : list ModelAttribute)
    (fields : list (string * FieldDefinition)) : ModelDefinition :=
  {| m_name := name; m_fields := Some fields; m_attributes := Some attributes |}.

(** The models mocked in [index.test.ts]. *)
Definition test_schema : Schema :=
  list_to_map
    [("Category", model_def "Category" []
        [scalar_field "id" "String"; scalar_field "name" "String";
         relation_to "posts" "Post" "category" [] []]);
     ("Comment", model_def "Comment" []
        [relation_to "author" "User" "comments" ["authorId"] ["id"];
         scalar_field "authorId" "String"; scalar_field "content" "String";
         scalar_field "id" "String";
         relation_to "post" "Post" "comments" ["postId"] ["id"];
         scalar_field "postId" "String"]);
     ("Post", model_def "Post" []
        [relation_to "author" "User" "posts" ["authorId"] ["id"];
         scalar_field "authorId" "String";
         relation_to "category" "Category" "posts" ["categoryId"] ["id"];
         scalar_field "categoryId" "String";
         relation_to "comments" "Comment" "post" [] [];
         scalar_field "id" "String"; scalar_field "title" "String"]);
     ("Session", model_def "Session" [{| a_name := "@@cache.exclude"; a_args := Some [] |}]
        [scalar_field "id" "String"]);
     ("User", model_def "User" []
        [relation_to "comments" "Comment" "author" [] [];
         scalar_field "email" "String"; scalar_field "id" "String";
         scalar_field "name" "String";
         relation_to "posts" "Post" "author" [] []])].

(** A schema whose model Post declares [@@cache.tags([])]. *)
Definition schema_with_empty_tags : Schema :=
  <["Post" := model_def "Post"
       [{| a_name := "@@cache.tags";
           a_args := Some [{| arg_name := "tags"; arg_value := JArr [] |}] |}]
       [scalar_field "id" "String"]]> test_schema.

(** A schema with DateTime fields and relations in both directions. *)
Definition blog_schema : Schema :=
  list_to_map
    [("Post", model_def "Post" []
        [scalar_field "id" "String"; scalar_field "title" "String";
         scalar_field "createdAt" "DateTime"; scalar_field "price" "Decimal";
         scalar_field "meta" "Json";
         relation_to "author" "User" "posts" ["authorId"] ["id"];
         scalar_field "authorId" "String"]);
     ("User", model_def "User" []
        [scalar_field "id" "String"; scalar_field "joinedAt" "DateTime";
         relation_to "posts" "Post" "author" [] []])].

Definition blog_posts : JsValue :=
  JArr [JObj [("id", JStr "p1"); ("title", JStr "2024-01-15T10:30:00 was a Monday");
              ("createdAt", JDate (Some 1705314600000)); ("price", JNull);
              ("meta", JObj [("views", JNum 3); ("labels", JArr [JStr "a"; JBool true])]);
              ("author",
               JObj [("id", JStr "u1"); ("joinedAt", JDate (Some (-1)));
                     ("posts", JArr [JObj [("id", JStr "p1");
                                           ("createdAt", JDate (Some 0))]])]);
              ("authorId", JStr "u1")];
        JObj [("id", JStr "p2"); ("createdAt", JUndefined); ("author", JNull)]].

Definition far_future_post : JsValue :=
  JObj [("id", JStr "p3"); ("createdAt", JDate (Some 253402300800000))].

(** An executor that answers its successive calls from a script. *)
Definition Script : Type := list (Completion JsValue).

Definition scripted (script : Script) : Completion JsValue * Script :=
  match script with
  | answer :: rest => (answer, rest)
  | [] => (Throw (Rejected (JStr "no more answers")), [])
  end.

Definition new_world (script : Script) : World Script :=
  {| executor := script; store := []; calls := [] |}.

Definition query_on (model operation : string) (queryArgs : JsValue) : QueryContext Script :=
  {| model := model; operation := operation; args := queryArgs;
     proceed := fun _ => scripted; client_auth := None |}.

(** The context of the unit tests: [next/cache] mocked with
    [unstable_cache] and [revalidateTag], and no [updateTag]. *)
Definition test_next : NextCache :=
  {| import_resolves := true; unstable_cache_runs := true;
     updateTag_runs := false; revalidateTag_runs := true |}.

(** A Next.js request served by a Server Action. *)
Definition server_action : NextCache :=
  {| import_resolves := true; unstable_cache_runs := true;
     updateTag_runs := true; revalidateTag_runs := true |}.

(** A process without Next.js. *)
Definition no_next : NextCache :=
  {| import_resolves := false; unstable_cache_runs := false;
     updateTag_runs := false; revalidateTag_runs := false |}.

Definition host_date_text (t : Z) : string := ISOString_of_time t.

Definition mutation_of (m : string) : MutationArgs Script :=
  {| mutated_model := m; loadAfterMutationEntities := scripted |}.

(** A generator that versions the tags, as in the README. *)
Definition versioned_tags (m : string) (id : option string) : list string :=
  ("v1:" +:+ String_toLowerCase m +:+ ":list")
  :: match id with
     | Some i => if truthy (JStr i) then ["v1:" +:+ String_toLowerCase m +:+ ":" +:+ i] else []
     | None => []
     end.

Definition versioned_options : NextjsCachePluginOptions :=
  {| defaultCacheLife := None; excludeModels := None; debug := None;
     customTagGenerator := Some versioned_tags |}.

Definition connection_lost : JsError := Rejected (JStr "connection lost").
Definition still_down : JsError := Rejected (JStr "still down").
Definition user_rows : JsValue := JArr [JObj [("id", JStr "1"); ("name", JStr "Ann")]].

(** A schema whose model Post declares [@@cache.tags(['posts', 7, 'content'])]. *)
Definition schema_with_custom_tags : Schema :=
  <["Post" := model_def "Post"
       [{| a_name := "@@cache.tags";
           a_args := Some [{| arg_name := "tags";
                              arg_value := JArr [JStr "posts"; JNum 7; JStr "content"] |}] |}]
       [scalar_field "id" "String"]]> test_schema.

(** A stand-in for the [Decimal] class of the Prisma runtime: it accepts
    numbers and strings that start with a digit, and throws on the rest. *)
Definition test_Decimal (value : JsValue) : Completion JsValue :=
  match value with
  | JNum n => Normal (JDecimal (Number_toString n) [("d", JArr [JNum n])])
  | JStr s =>
      match s with
      | String c _ =>
          if is_digit c then Normal (JDecimal s [("d", JArr [])])
          else Throw (RangeError "[DecimalError] Invalid argument")
      | EmptyString => Throw (RangeError "[DecimalError] Invalid argument")
      end
  | _ => Throw (RangeError "[DecimalError] Invalid argument")
  end.

(* ====================================================================== *)
(** ** The vocabulary of the properties *)
(* ====================================================================== *)

Definition life_profiles : list string :=
  ["seconds"; "minutes"; "hours"; "days"; "weeks"; "max"].

(** What the attribute [@@cache.tags] of a model declares: the value of
    its first argument, [undefined] when there is none. *)
Definition declared_cache_tags (schema : Schema) (modelName : string) : JsValue :=
  first_arg_value
    (find (fun attr => String.eqb (a_name attr) "@@cache.tags")
          (getModelAttributes schema modelName)).

Definition listTag (modelName : string) : string :=
  String_toLowerCase modelName +:+ ":list".

(** The list tags that widen a read: one per included relation whose
    target is not excluded. *)
Definition wideningTags (schema : Schema) (options : NextjsCachePluginOptions)
    (modelName : string) (queryArgs : JsValue) : list string :=
  map listTag
      (List.filter (fun relatedModel => negb (isExcludedModel schema options relatedModel))
                   (extractIncludedRelations schema queryArgs modelName)).

(** The relations a query names in [include] and [select]. *)
Definition includedBy (fields : list (string * FieldDefinition)) (entry : string * JsValue)
  : option string :=
  match relation_field fields entry.1 with
  | Some field => if truthy entry.2 then Some (f_type field) else None
  | None => None
  end.

Definition selectedBy (fields : list (string * FieldDefinition)) (entry : string * JsValue)
  : option string :=
  match relation_field fields entry.1 with
  | Some field => if truthy entry.2 && typeof_object entry.2 then Some (f_type field) else None
  | None => None
  end.

Definition is_object (v : JsValue) : bool := truthy v && typeof_object v.

Definition is_proceed (c : Call) : Prop :=
  match c with
  | Call_proceed _ => True
  | _ => False
  end.

Definition add_calls {E : Type} (cs : list Call) (w : World E) : World E :=
  {| executor := executor w; store := store w; calls := calls w ++ cs |}.

(** The call that invalidates a tag in a context: [updateTag] where it
    runs, else [revalidateTag] with the profile [max]. *)
Definition invalidation (next : NextCache) (tag : string) : Call :=
  if updateTag_runs next then Call_updateTag tag else Call_revalidateTag tag "max".

Definition invalidatedTag (c : Call) : option string :=
  match c with
  | Call_updateTag tag | Call_revalidateTag tag _ => Some tag
  | _ => None
  end.

(** The tags invalidated by a sequence of calls, in order. *)
Definition invalidatedTags (cs : list Call) : list string := omap invalidatedTag cs.

(** A row carries an id: it is an object with a property [id]. *)
Definition carries_id (entity : JsValue) : bool :=
  truthy entity && typeof_object entity && has_property "id" entity.

Definition entityTag (Date_toString : Z -> string) (m : string) (entity : JsValue) : string :=
  String_toLowerCase m +:+ ":" +:+ ToString Date_toString (get entity "id").

(** The entity tags of the loaded rows that carry an id. *)
Definition entityTags (Date_toString : Z -> string) (m : string) (rows : list JsValue)
  : list string :=
  map (entityTag Date_toString m) (List.filter carries_id rows).

(** The rows a loader produced: none when it rejected or returned no array. *)
Definition loadedRows (outcome : Completion JsValue) : list JsValue :=
  match outcome with
  | Normal (JArr rows) => rows
  | _ => []
  end.

(** The list tags of the related models that are not excluded. *)
Definition relatedListTags (schema : Schema) (options : NextjsCachePluginOptions) (m : string)
  : list string :=
  map listTag
      (List.filter (fun relatedModel => negb (isExcludedModel schema options relatedModel))
                   (getRelatedModels schema m)).

(** The fallback of [onQuery]: the direct query, frozen and thawed. *)
Definition directQuery {E : Type} (schema : Schema) (Date_parse : string -> option Z)
    (RuntimeDecimal : option (JsValue -> Completion JsValue)) (ctx : QueryContext E)
  : Action E JsValue :=
  let* result := call_executor (Call_proceed (args ctx)) (proceed ctx (args ctx)) in
  let* transformed := lift (transformDates result) in
  lift (restoreDates schema Date_parse RuntimeDecimal transformed (model ctx)).

(** No [Date] and no decimal occurs in the value. *)
Fixpoint date_free (v : JsValue) : bool :=
  match v with
  | JDate _ | JDecimal _ _ => false
  | JArr items => forallb date_free items
  | JObj entries => forallb (fun kv => date_free kv.2) entries
  | _ => true
  end.

Definition absent (v : JsValue) : bool :=
  match v with
  | JNull | JUndefined => true
  | _ => false
  end.

(** What the fields of [modelName] ask of the property [key] of one of its
    objects: a DateTime field holds a date (or nothing), a Decimal field
    holds nothing, a relation field holds a value described by the target
    model, and any other field holds a value without dates. *)
Definition described_property (described : JsValue -> string -> bool)
    (schema : Schema) (modelName key : string) (x : JsValue) : bool :=
  if bool_decide (key ∈ getDateTimeFields schema modelName) then
    match x with
    | JDate _ | JNull | JUndefined => true
    | _ => false
    end
  else if bool_decide (key ∈ getDecimalFields schema modelName) then absent x
  else
    match relation_field (getModelFields schema modelName) key with
    | Some field => described x (f_type field)
    | None => date_free x
    end.

(** The fields of [modelName] describe the dates of [v]: [v] is made of
    arrays and objects of [modelName] whose properties are as
    [described_property] asks.  A date or decimal that is no property
    value is not described. *)
Fixpoint described (schema : Schema) (v : JsValue) (modelName : string) {struct v} : bool :=
  match v with
  | JArr items => forallb (fun item => described schema item modelName) items
  | JObj entries =>
      forallb (fun kv : string * JsValue =>
                 described_property (fun x relatedModel => described schema x relatedModel)
                   schema modelName kv.1 kv.2)
              entries
  | JDate _ | JDecimal _ _ => false
  | _ => true
  end.

(** Every date of the value is valid and its year is in 0..9999. *)
Fixpoint four_digit_years (v : JsValue) : bool :=
  match v with
  | JDate (Some t) => (0 <=? YearFromTime t) && (YearFromTime t <=? 9999)
  | JDate None => false
  | JArr items => forallb four_digit_years items
  | JObj entries => forallb (fun kv => four_digit_years kv.2) entries
  | _ => true
  end.

(** The host's [Date] constructor agrees with [Date_parse_utc] on the
    strings that function accepts. *)
Definition parses_iso_strings (Date_parse : string -> option Z) : Prop :=
  forall s t, Date_parse_utc s = Some t -> Date_parse s = Some t.

(** Freezing [v] succeeds and thawing the result under [modelName] gives
    [v] back. *)
Definition roundtrip (schema : Schema) (Date_parse : string -> option Z)
    (PrismaDecimal : option (JsValue -> Completion JsValue))
    (v : JsValue) (modelName : string) : Prop :=
  exists frozen,
    transformDates v = Normal frozen
    /\ restoreTypesInternal schema Date_parse frozen modelName PrismaDecimal = Normal v.

(** The ISO text of a date with a four-digit year. *)
Definition iso_text (y m d hh mm ss ms : Z) : string :=
  pad 4 y +:+ "-" +:+ pad 2 m +:+ "-" +:+ pad 2 d +:+ "T" +:+
  pad 2 hh +:+ ":" +:+ pad 2 mm +:+ ":" +:+ pad 2 ss +:+ "." +:+ pad 3 ms +:+ "Z".

(** What the attribute [@@cache.life] of a model declares: the value of
    its first argument, [undefined] when there is none. *)
Definition declared_cache_life (schema : Schema) (modelName : string) : JsValue :=
  first_arg_value
    (find (fun attr => String.eqb (a_name attr) "@@cache.life")
          (getModelAttributes schema modelName)).

(** The target of a field that is a relation. *)
Definition relationTarget (entry : string * FieldDefinition) : option string :=
  match f_relation entry.2 with
  | Some _ => Some (f_type entry.2)
  | None => None
  end.

(** The entity tag of a model for an id: none for an absent or empty id. *)
Definition entityTagFor (m : string) (id : option string) : list string :=
  match id with
  | Some i => if String.eqb i "" then [] else [String_toLowerCase m +:+ ":" +:+ i]
  | None => []
  end.

(** No Invalid Date occurs in the value (the properties of a decimal are
    not looked at). *)
Fixpoint valid_dates (v : JsValue) : bool :=
  match v with
  | JDate None => false
  | JArr items => forallb valid_dates items
  | JObj entries => forallb (fun kv => valid_dates kv.2) entries
  | _ => true
  end.


(** A field that is neither a DateTime, nor a Decimal, nor a relation. *)
Definition plain_field (entry : string * FieldDefinition) : Prop :=
  f_type entry.2 <> "DateTime" /\ f_type entry.2 <> "Decimal" /\ f_relation entry.2 = None.

(** The UTC year of a time value is in 0..9999. *)
Definition four_digit_year (t : Z) : bool :=
  (0 <=? YearFromTime t) && (YearFromTime t <=? 9999).

(** *** JSON string literals, read back *)

Definition hex_value (c : ascii) : option N :=
  let n := N_of_ascii c in
  if ((48 <=? n) && (n <=? 57))%N then Some (n - 48)%N
  else if ((97 <=? n) && (n <=? 102))%N then Some (n - 87)%N
  else None.

Definition prepend (c : ascii) (r : option (string * string)) : option (string * string) :=
  match r with
  | Some (text, rest) => Some (String c text, rest)
  | None => None
  end.

(** Reads the characters of a JSON string literal up to its closing quote:
    the text they stand for and what follows the quote. *)
Fixpoint json_unquote_body (s : string) : option (string * string) :=
  match s with
  | EmptyString => None
  | String c rest =>
      if Ascii.eqb c quote_char then Some ("", rest)
      else if Ascii.eqb c backslash_char then
        match rest with
        | String d rest' =>
            if Ascii.eqb d quote_char then prepend quote_char (json_unquote_body rest')
            else if Ascii.eqb d backslash_char then
              prepend backslash_char (json_unquote_body rest')
            else if Ascii.eqb d "b" then prepend (ascii_of_N 8) (json_unquote_body rest')
            else if Ascii.eqb d "t" then prepend (ascii_of_N 9) (json_unquote_body rest')
            else if Ascii.eqb d "n" then prepend (ascii_of_N 10) (json_unquote_body rest')
            else if Ascii.eqb d "f" then prepend (ascii_of_N 12) (json_unquote_body rest')
            else if Ascii.eqb d "r" then prepend (ascii_of_N 13) (json_unquote_body rest')
            else if Ascii.eqb d "u" then
              match rest' with
              | String z1 (String z2 (String h1 (String h2 rest''))) =>
                  match hex_value h1, hex_value h2 with
                  | Some high, Some low =>
                      if Ascii.eqb z1 "0" && Ascii.eqb z2 "0"
                      then prepend (ascii_of_N (16 * high + low)) (json_unquote_body rest'')
                      else None
                  | _, _ => None
                  end
              | _ => None
              end
            else None
        | EmptyString => None
        end
      else prepend c (json_unquote_body rest)
  end.

(** Reads a JSON string literal off the front of a text. *)
Definition json_unquote (s : string) : option (string * string) :=
  match s with
  | String c rest => if Ascii.eqb c quote_char then json_unquote_body rest else None
  | EmptyString => None
  end.

(** *** Reads through the data cache *)

(** The data cache can be used: the module imports and [unstable_cache]
    runs. *)
Definition cache_available (next : NextCache) : bool :=
  import_resolves next && unstable_cache_runs next.

(** The call a read makes to the data cache. *)
Definition cacheCall {E : Type} (schema : Schema) (options : NextjsCachePluginOptions)
    (ctx : QueryContext E) : Call :=
  Call_unstable_cache
    (generateCacheKey (model ctx) (operation ctx) (args ctx) (client_auth ctx ≫= auth_id))
    (getCacheRevalidateSeconds (getLifeForModel schema options (model ctx)))
    (readTags schema options (model ctx) (args ctx)).

(** The entry a read stores for a frozen result. *)
Definition cacheEntry {E : Type} (schema : Schema) (options : NextjsCachePluginOptions)
    (ctx : QueryContext E) (frozen : JsValue) : CacheEntry :=
  {| entry_key :=
       generateCacheKey (model ctx) (operation ctx) (args ctx) (client_auth ctx ≫= auth_id);
     entry_value := frozen;
     entry_revalidate := getCacheRevalidateSeconds (getLifeForModel schema options (model ctx));
     entry_tags := readTags schema options (model ctx) (args ctx) |}.

(** *** Invalidation in any context *)

(** The calls by which a tag gets invalidated: one call of [updateTag]
    where it runs, else one of [revalidateTag] with the profile [max] where
    that runs, else none; none either when the module does not import. *)
Definition invalidations (next : NextCache) (tag : string) : list Call :=
  if import_resolves next then
    if updateTag_runs next then [Call_updateTag tag]
    else if revalidateTag_runs next then [Call_revalidateTag tag "max"]
    else []
  else [].

(** A tag can be invalidated: the module imports and one of the two
    primitives runs. *)
Definition invalidation_available (next : NextCache) : bool :=
  import_resolves next && (updateTag_runs next || revalidateTag_runs next).

(* ====================================================================== *)
(** * Examples from the tests and the documentation *)
(* ====================================================================== *)

Example lower_Post : String_toLowerCase "Post" = "post".
Proof. reflexivity. Qed.

Example number_to_string : map Number_toString [0; 7; 10; 120; -45] = ["0"; "7"; "10"; "120"; "-45"].
Proof. reflexivity. Qed.

Example iso_2024 : ISOString_of_time 1705314600000 = "2024-01-15T10:30:00.000Z".
Proof. reflexivity. Qed.

Example iso_epoch : ISOString_of_time 0 = "1970-01-01T00:00:00.000Z".
Proof. reflexivity. Qed.

Example iso_before_epoch : ISOString_of_time (-1) = "1969-12-31T23:59:59.999Z".
Proof. reflexivity. Qed.

Example iso_year_10000 : ISOString_of_time 253402300800000 = "+010000-01-01T00:00:00.000Z".
Proof. reflexivity. Qed.

Example parse_2024 : Date_parse_utc "2024-01-15T10:30:00.000Z" = Some 1705314600000.
Proof. reflexivity. Qed.

Example parse_feb_30 : Date_parse_utc "2023-02-30T10:30:00.000Z" = None.
Proof. reflexivity. Qed.

Example regex_examples :
  map (RegExp_test ISO_DATE_REGEX)
    ["2024-01-15T10:30:00.000Z"; "2024-01-15"; "+010000-01-01T00:00:00.000Z"; "2024-01-15T10:30:00 and more"]
  = [true; false; false; true].
Proof. reflexivity. Qed.

Example key_no_args : generateCacheKey "User" "findMany" JUndefined None = ["user:findMany"].
Proof. reflexivity. Qed.

Example key_with_user :
  generateCacheKey "User" "findMany" JUndefined (Some "user-123") = ["user:user-123:user:findMany"].
Proof. reflexivity. Qed.

Example key_with_args :
  generateCacheKey "User" "findMany" (JObj [("where", JObj [("id", JStr "1")])]) None
  = ["user:findMany"; "{" +:+ json_quote "where" +:+ ":{" +:+ json_quote "id" +:+ ":" +:+ json_quote "1" +:+ "}}"].
Proof. reflexivity. Qed.

Example key_empty_object : generateCacheKey "User" "findMany" (JObj []) None = ["user:findMany"; "{}"].
Proof. reflexivity. Qed.

Example key_per_user :
  generateCacheKey "Post" "findMany" (JObj [("where", JObj [("active", JBool true)])]) (Some "user-1")
  <> generateCacheKey "Post" "findMany" (JObj [("where", JObj [("active", JBool true)])]) (Some "user-2").
Proof. discriminate. Qed.

Example ids_of_args :
  map extractIdFromArgs
    [JObj [("where", JObj [("id", JStr "123")])]; JObj [("where", JObj [("id", JNum 456)])];
     JObj [("data", JObj [("name", JStr "test")])]; JObj [("where", JObj [("name", JStr "test")])];
     JNull; JUndefined; JStr "string"; JNum 123]
  = [Some "123"; Some "456"; None; None; None; None; None; None].
Proof. reflexivity. Qed.

Example read_operations :
  map isReadOperation
    ["findMany"; "findUnique"; "findFirst"; "findUniqueOrThrow"; "findFirstOrThrow"; "count";
     "aggregate"; "groupBy"]
  = [true; true; true; true; true; true; true; true]
  /\ map isReadOperation
       ["create"; "createMany"; "update"; "updateMany"; "delete"; "deleteMany"; "upsert"]
     = [false; false; false; false; false; false; false].
Proof. split; reflexivity. Qed.

Example tags_of_User :
  generateCacheTags "User" None None = ["user:list"]
  /\ generateCacheTags "User" (Some "123") None = ["user:list"; "user:123"]
  /\ generateCacheTags "User" (Some "123") (Some versioned_tags) = ["v1:user:list"; "v1:user:123"].
Proof. repeat split. Qed.

Example frozen_dates :
  transformDates
    (JObj [("id", JStr "1");
           ("user", JObj [("createdAt", JDate (Some 1705314600000)); ("name", JStr "Test")]);
           ("stamps", JArr [JDate (Some 0); JNull])])
  = Normal (JObj [("id", JStr "1");
                  ("user", JObj [("createdAt", JStr "2024-01-15T10:30:00.000Z");
                                 ("name", JStr "Test")]);
                  ("stamps", JArr [JStr "1970-01-01T00:00:00.000Z"; JNull])])
  /\ transformDates (JDate None) = Throw (RangeError "Invalid time value").
Proof. split; reflexivity. Qed.

Example related_models_of_Post :
  getRelatedModels test_schema "Post" = ["User"; "Category"; "Comment"].
Proof. vm_compute. reflexivity. Qed.

Example related_models_of_unknown : getRelatedModels test_schema "Nope" = [].
Proof. vm_compute. reflexivity. Qed.

Example included_relations :
  extractIncludedRelations test_schema
    (JObj [("include", JObj [("author", JBool true); ("comments", JBool false)]);
           ("select", JObj [("category", JObj [("select", JObj [("name", JBool true)])]);
                            ("title", JBool true)])])
    "Post"
  = ["User"; "Category"].
Proof. vm_compute. reflexivity. Qed.

Example read_tags_with_include :
  readTags test_schema no_options "Post" (JObj [("include", JObj [("author", JBool true)])])
  = ["post:list"; "user:list"].
Proof. vm_compute. reflexivity. Qed.

Example read_tags_find_unique :
  readTags test_schema no_options "User" (JObj [("where", JObj [("id", JStr "1")])])
  = ["user:list"; "user:1"].
Proof. vm_compute. reflexivity. Qed.

Example mutation_of_User :
  calls (afterEntityMutation test_schema host_date_text no_options test_next
           (mutation_of "User")
           (new_world [Normal (JArr [JObj [("id", JStr "user-1"); ("name", JStr "Updated User")]])])).2
  = [Call_revalidateTag "user:list" "max"; Call_loadEntities;
     Call_revalidateTag "user:user-1" "max";
     Call_revalidateTag "comment:list" "max"; Call_revalidateTag "post:list" "max"].
Proof. vm_compute. reflexivity. Qed.

Example read_of_excluded_Session :
  onQuery test_schema Date_parse_utc None no_options test_next
    (query_on "Session" "findMany" (JObj []))
    (new_world [Normal (JObj [("id", JStr "1")])])
  = (Normal (JObj [("id", JStr "1")]),
     {| executor := []; store := []; calls := [Call_proceed (JObj [])] |}).
Proof. vm_compute. reflexivity. Qed.

Example write_keeps_dates :
  (onQuery test_schema Date_parse_utc None no_options test_next
     (query_on "User" "create" (JObj [("data", JObj [("name", JStr "Test")])]))
     (new_world [Normal (JObj [("createdAt", JDate (Some 1705314600000)); ("id", JStr "1")])])).1
  = Normal (JObj [("createdAt", JDate (Some 1705314600000)); ("id", JStr "1")]).
Proof. vm_compute. reflexivity. Qed.

Example second_read_is_a_hit :
  let read := query_on "User" "findMany" (JObj []) in
  let run := onQuery test_schema Date_parse_utc None no_options server_action read in
  let first := run (new_world [Normal user_rows; Throw connection_lost]) in
  let second := run first.2 in
  first.1 = Normal user_rows /\ second.1 = Normal user_rows
  /\ calls second.2
     = [Call_unstable_cache ["user:findMany"; "{}"] 3600 ["user:list"]; Call_proceed (JObj []);
        Call_unstable_cache ["user:findMany"; "{}"] 3600 ["user:list"]].
Proof. vm_compute. repeat split. Qed.

Example read_of_User_dates :
  (onQuery test_schema Date_parse_utc None no_options test_next
     (query_on "User" "findUnique" (JObj [("where", JObj [("id", JStr "1")])]))
     (new_world [Normal (JObj [("createdAt", JDate (Some 1705314600000)); ("id", JStr "1")])])).1
  = Normal (JObj [("createdAt", JStr "2024-01-15T10:30:00.000Z"); ("id", JStr "1")]).
Proof. vm_compute. reflexivity. Qed.

Example tags_of_a_model_with_custom_tags :
  getCustomTags schema_with_custom_tags "Post" = Some ["posts"; "content"]
  /\ getTagsForModel schema_with_custom_tags no_options "Post" None = ["posts"; "content"]
  /\ getTagsForModel schema_with_custom_tags no_options "Post" (Some "7")
     = ["posts"; "content"; "post:7"]
  /\ getTagsForModel schema_with_custom_tags versioned_options "Post" (Some "7")
     = ["v1:post:list"; "v1:post:7"].
Proof. vm_compute. repeat split. Qed.

Example typed_fields_of_Post :
  map (fun key => bool_decide (key ∈ getDateTimeFields blog_schema "Post"))
      ["id"; "createdAt"; "price"; "author"]
  = [false; true; false; false]
  /\ map (fun key => bool_decide (key ∈ getDecimalFields blog_schema "Post"))
         ["id"; "createdAt"; "price"; "author"]
     = [false; false; true; false].
Proof. vm_compute. split; reflexivity. Qed.

Example thawed_fields :
  restoreDates blog_schema Date_parse_utc (Some test_Decimal)
    (JObj [("price", JStr "12.50"); ("createdAt", JStr "2024-01-15T10:30:00.000Z");
           ("title", JStr "2024-01-15T10:30:00.000Z");
           ("author", JObj [("id", JStr "u1"); ("joinedAt", JStr "1970-01-01T00:00:00.000Z")])])
    "Post"
  = Normal (JObj [("price", JDecimal "12.50" [("d", JArr [])]);
                  ("createdAt", JDate (Some 1705314600000));
                  ("title", JStr "2024-01-15T10:30:00.000Z");
                  ("author", JObj [("id", JStr "u1"); ("joinedAt", JDate (Some 0))])]).
Proof. vm_compute. reflexivity. Qed.

Example iso_before_year_zero :
  ISOString_of_time (-62198755200000) = "-000001-01-01T00:00:00.000Z".
Proof. reflexivity. Qed.

Example unquoted_literal :
  json_unquote (json_quote "a\b" +:+ ":1}") = Some ("a\b", ":1}").
Proof. reflexivity. Qed.

Example mutation_without_next :
  afterEntityMutation test_schema host_date_text no_options no_next (mutation_of "User")
    (new_world [Normal user_rows])
  = (Normal tt, {| executor := []; store := []; calls := [Call_loadEntities] |}).
Proof. vm_compute. reflexivity. Qed.

(* ====================================================================== *)
(** * Properties *)
(* ====================================================================== *)

(** ** Life profiles *)

(** C4.  The six life profiles map to 1, 60, 3600, 86400, 604800 and
    31536000 seconds, and every other profile string maps to 3600. *)
Theorem getCacheRevalidateSeconds_table :
  map getCacheRevalidateSeconds life_profiles = [1; 60; 3600; 86400; 604800; 31536000]
  /\ forall profile : string,
       ~ In profile life_profiles -> getCacheRevalidateSeconds profile = 3600.
Proof.
  split; [reflexivity |].
  intros profile Hnot. unfold getCacheRevalidateSeconds.
  repeat match goal with
         | |- context [String.eqb profile ?s] =>
             destruct (String.eqb_spec profile s) as [-> | _];
             [exfalso; apply Hnot; simpl; tauto |]
         end.
  reflexivity.
Qed.

Lemma getCacheRevalidateSeconds_table_witness : getCacheRevalidateSeconds "forever" = 3600.
Proof.
  apply (proj2 getCacheRevalidateSeconds_table "forever").
  simpl. intros H. repeat destruct H as [H | H]; try discriminate H. exact H.
Defined.

(** ** Default tags *)

Lemma truthy_JStr (s : string) : truthy (JStr s) = true <-> s <> "".
Proof.
  simpl. destruct (String.eqb_spec s ""); simpl; split; intros; congruence.
Qed.

(** C3, as amended.  Without a tag generator, a model [m] and a non-empty
    id [i] yield exactly the list tag and the entity tag, and a model
    without id yields exactly the list tag.  These are also the tags the
    plugin resolves for a model without custom tags. *)
Theorem generateCacheTags_default (m i : string) :
  i <> "" ->
  (generateCacheTags m (Some i) None
   = [String_toLowerCase m +:+ ":list"; String_toLowerCase m +:+ ":" +:+ i]
   /\ generateCacheTags m None None = [String_toLowerCase m +:+ ":list"])
  /\ forall (schema : Schema) (options : NextjsCachePluginOptions),
       customTagGenerator options = None ->
       getCustomTags schema m = None \/ getCustomTags schema m = Some [] ->
       getTagsForModel schema options m (Some i)
       = [String_toLowerCase m +:+ ":list"; String_toLowerCase m +:+ ":" +:+ i]
       /\ getTagsForModel schema options m None = [String_toLowerCase m +:+ ":list"].
Proof.
  intros Hi. apply truthy_JStr in Hi.
  assert (Hdefault : generateCacheTags m (Some i) None
                     = [String_toLowerCase m +:+ ":list"; String_toLowerCase m +:+ ":" +:+ i]
                     /\ generateCacheTags m None None = [String_toLowerCase m +:+ ":list"]).
  { unfold generateCacheTags. rewrite Hi. split; reflexivity. }
  split; [exact Hdefault |].
  intros schema options Hgenerator Hcustom. unfold getTagsForModel. rewrite Hgenerator.
  destruct Hcustom as [-> | ->]; exact Hdefault.
Qed.

Lemma generateCacheTags_default_witness :
  (generateCacheTags "User" (Some "abc123") None = ["user:list"; "user:abc123"]
   /\ generateCacheTags "User" None None = ["user:list"])
  /\ forall (schema : Schema) (options : NextjsCachePluginOptions),
       customTagGenerator options = None ->
       getCustomTags schema "User" = None \/ getCustomTags schema "User" = Some [] ->
       getTagsForModel schema options "User" (Some "abc123") = ["user:list"; "user:abc123"]
       /\ getTagsForModel schema options "User" None = ["user:list"].
Proof.
  apply (generateCacheTags_default "User" "abc123"). discriminate.
Defined.

(** C3 as stated fails at the empty id: it is a given id of type string,
    and no entity tag is produced for it. *)
Lemma generateCacheTags_empty_id_counterexample :
  generateCacheTags "User" (Some "") None = ["user:list"]
  /\ generateCacheTags "User" (Some "") None
     <> [String_toLowerCase "User" +:+ ":list"; String_toLowerCase "User" +:+ ":" +:+ ""].
Proof.
  split; [reflexivity | discriminate].
Qed.

(** C8.  Default generation treats the empty id as an absent one: only
    the list tag is returned, and an entity tag is appended exactly when
    the id is a non-empty string.  The same holds where [getTagsForModel]
    appends the entity tag to the custom tags of a model. *)
Theorem empty_id_is_no_id (schema : Schema) (m : string) :
  generateCacheTags m (Some "") None = [String_toLowerCase m +:+ ":list"]
  /\ generateCacheTags m (Some "") None = generateCacheTags m None None
  /\ (forall id : option string,
        generateCacheTags m id None <> [String_toLowerCase m +:+ ":list"] <->
        exists i, id = Some i /\ i <> "" /\
          generateCacheTags m id None
          = [String_toLowerCase m +:+ ":list"; String_toLowerCase m +:+ ":" +:+ i])
  /\ (forall life excluded dbg,
        let options := {| defaultCacheLife := life; excludeModels := excluded;
                          debug := dbg; customTagGenerator := None |} in
        getTagsForModel schema options m (Some "") = getTagsForModel schema options m None).
Proof.
  split; [reflexivity |]. split; [reflexivity |]. split; [intros id; split |].
  - intros Hne. destruct id as [i |]; [| contradiction].
    exists i. unfold generateCacheTags in *.
    destruct (truthy (JStr i)) eqn:Ht; [| contradiction].
    apply truthy_JStr in Ht. auto.
  - intros (i & -> & Hi & Heq). rewrite Heq. discriminate.
  - unfold getTagsForModel. simpl.
    destruct (getCustomTags schema m) as [[| t ts] |]; reflexivity.
Qed.

(** ** Cache keys *)

(** The arguments of a query that reaches [JSON.stringify] are an object,
    and the JSON text of an object exists. *)
Lemma JSON_stringify_object (v : JsValue) :
  truthy v = true -> typeof_object v = true -> is_Some (JSON_stringify v).
Proof.
  destruct v as [| | | | | [t |] | | |]; simpl; intros Ht Ho;
    try discriminate Ht; try discriminate Ho; eexists; reflexivity.
Qed.

(** The shape of a key: the base key alone, or the base key and the JSON
    text of the arguments. *)
Lemma generateCacheKey_shape (model operation : string) (queryArgs : JsValue)
    (userId : option string) :
  exists baseKey,
    if truthy queryArgs && typeof_object queryArgs
    then exists argsStr,
           JSON_stringify queryArgs = Some argsStr
           /\ generateCacheKey model operation queryArgs userId = [baseKey; argsStr]
    else generateCacheKey model operation queryArgs userId = [baseKey].
Proof.
  unfold generateCacheKey. eexists.
  destruct (truthy queryArgs) eqn:Ht, (typeof_object queryArgs) eqn:Ho; simpl;
    try reflexivity.
  destruct (JSON_stringify_object queryArgs Ht Ho) as [argsStr Hjson].
  exists argsStr. rewrite Hjson. split; reflexivity.
Qed.

(** C7.  Key generation is a function of (model, operation, args, callerId):
    two calls on the same tuple return the same sequence. *)
Theorem generateCacheKey_deterministic
    (model operation : string) (queryArgs : JsValue) (userId : option string)
    (first second : list string) :
  first = generateCacheKey model operation queryArgs userId ->
  second = generateCacheKey model operation queryArgs userId ->
  first = second.
Proof.
  intros -> ->. reflexivity.
Qed.

Lemma generateCacheKey_deterministic_witness :
  ["user:user-1:post:findMany"; "{}"] = ["user:user-1:post:findMany"; "{}"].
Proof.
  apply (generateCacheKey_deterministic "Post" "findMany" (JObj []) (Some "user-1"));
    reflexivity.
Defined.

(** ** Custom tags *)

(** C9.  When the attribute declares an empty list or a value that is no
    array, the tags of the model are the fallback ones (the generator of
    the options, else default generation), as for a model that declares
    nothing: custom tags are used only when the declared list is
    non-empty. *)
Theorem getTagsForModel_falls_back
    (schema schema' : Schema) (options : NextjsCachePluginOptions)
    (m : string) (id : option string) :
  declared_cache_tags schema m = JArr [] \/
    Array_isArray (declared_cache_tags schema m) = false ->
  find (fun attr => String.eqb (a_name attr) "@@cache.tags")
       (getModelAttributes schema' m) = None ->
  getTagsForModel schema options m id = generateCacheTags m id (customTagGenerator options)
  /\ getTagsForModel schema options m id = getTagsForModel schema' options m id.
Proof.
  intros Hdeclared Habsent.
  assert (Hfallback : forall s : Schema,
             getCustomTags s m = None \/ getCustomTags s m = Some [] ->
             getTagsForModel s options m id
             = generateCacheTags m id (customTagGenerator options)).
  { intros s Hs. unfold getTagsForModel, generateCacheTags.
    destruct (customTagGenerator options); [reflexivity |].
    destruct Hs as [-> | ->]; reflexivity. }
  assert (H1 : getCustomTags schema m = None \/ getCustomTags schema m = Some []).
  { unfold getCustomTags. fold (declared_cache_tags schema m).
    destruct Hdeclared as [-> | Hno]; [right; reflexivity |].
    left. destruct (declared_cache_tags schema m); try discriminate Hno;
      destruct (negb _); reflexivity. }
  assert (H2 : getCustomTags schema' m = None).
  { unfold getCustomTags. rewrite Habsent. reflexivity. }
  rewrite (Hfallback schema H1), (Hfallback schema' (or_introl H2)). split; reflexivity.
Qed.

Lemma getTagsForModel_falls_back_witness :
  getTagsForModel schema_with_empty_tags no_options "Post" (Some "7") = ["post:list"; "post:7"]
  /\ getTagsForModel schema_with_empty_tags no_options "Post" (Some "7")
     = getTagsForModel test_schema no_options "Post" (Some "7").
Proof.
  apply (getTagsForModel_falls_back schema_with_empty_tags test_schema no_options "Post" (Some "7")).
  - left. vm_compute. reflexivity.
  - vm_compute. reflexivity.
Defined.

(** ** Read-time widening *)

Lemma foldl_push {A B : Type} (step : list B -> A -> list B) (f : A -> option B)
    (l : list A) (acc : list B) :
  (forall acc x, step acc x = acc ++ option_list (f x)) ->
  foldl step acc l = acc ++ omap f l.
Proof.
  intros Hstep. revert acc.
  induction l as [| x l IH]; intros acc; csimpl.
  - symmetry. apply app_nil_r.
  - rewrite IH, Hstep. destruct (f x); csimpl.
    + rewrite <- app_assoc. reflexivity.
    + rewrite app_nil_r. reflexivity.
Qed.

Lemma omap_filter_map {A B : Type} (keep : A -> bool) (g : A -> B) (l : list A) :
  omap (fun x => if keep x then Some (g x) else None) l = map g (List.filter keep l).
Proof.
  induction l as [| x l IH]; csimpl; [reflexivity |].
  destruct (keep x); csimpl; rewrite IH; reflexivity.
Qed.

(** The tags of a read are the tags of the model followed by the widening
    tags. *)
Lemma readTags_eq (schema : Schema) (options : NextjsCachePluginOptions)
    (m : string) (queryArgs : JsValue) :
  readTags schema options m queryArgs
  = getTagsForModel schema options m (extractIdFromArgs queryArgs)
    ++ wideningTags schema options m queryArgs.
Proof.
  unfold readTags, wideningTags.
  rewrite (foldl_push _ (fun r => if negb (isExcludedModel schema options r)
                                  then Some (listTag r) else None)).
  - rewrite omap_filter_map. reflexivity.
  - intros acc r. destruct (negb _); simpl; [reflexivity | rewrite app_nil_r; reflexivity].
Qed.

Lemma extractIncludedRelations_eq (schema : Schema) (queryArgs : JsValue) (m : string) :
  is_object queryArgs = true ->
  extractIncludedRelations schema queryArgs m
  = (if is_object (get queryArgs "include")
     then omap (includedBy (getModelFields schema m)) (Object_entries (get queryArgs "include"))
     else [])
    ++ (if is_object (get queryArgs "select")
        then omap (selectedBy (getModelFields schema m)) (Object_entries (get queryArgs "select"))
        else []).
Proof.
  unfold is_object. intros Hobj. apply andb_true_iff in Hobj as [Ht Ho].
  unfold extractIncludedRelations. rewrite Ht, Ho. simpl.
  set (fromInclude := if truthy (get queryArgs "include") && _ then _ else _).
  assert (Hinc : fromInclude
                 = if truthy (get queryArgs "include") && typeof_object (get queryArgs "include")
                   then omap (includedBy (getModelFields schema m))
                             (Object_entries (get queryArgs "include"))
                   else []).
  { subst fromInclude. destruct (truthy _ && _); [| reflexivity].
    rewrite (foldl_push _ (includedBy (getModelFields schema m))); [reflexivity |].
    intros acc x. unfold includedBy.
    destruct (relation_field _ _); [destruct (truthy x.2) |]; simpl;
      rewrite ?app_nil_r; reflexivity. }
  rewrite Hinc. clear Hinc fromInclude.
  destruct (truthy (get queryArgs "select") && _); [| rewrite app_nil_r; reflexivity].
  rewrite (foldl_push _ (selectedBy (getModelFields schema m))); [reflexivity |].
  intros acc x. unfold selectedBy.
  destruct (relation_field _ _); [destruct (truthy x.2 && _) |]; simpl;
    rewrite ?app_nil_r; reflexivity.
Qed.

Lemma In_omap {A B : Type} (f : A -> option B) (l : list A) (x : A) (y : B) :
  In x l -> f x = Some y -> In y (omap f l).
Proof.
  intros Hin Hf. apply list_elem_of_In, list_elem_of_omap.
  exists x. split; [apply list_elem_of_In, Hin | exact Hf].
Qed.

(** A relation named in [include] with a truthy value is extracted. *)
Lemma included_relation_extracted (schema : Schema) (m : string) (queryArgs : JsValue)
    (fieldName : string) (value : JsValue) (field : FieldDefinition) :
  is_object queryArgs = true ->
  is_object (get queryArgs "include") = true ->
  In (fieldName, value) (Object_entries (get queryArgs "include")) ->
  truthy value = true ->
  relation_field (getModelFields schema m) fieldName = Some field ->
  In (f_type field) (extractIncludedRelations schema queryArgs m).
Proof.
  intros Hargs Hinc Hin Hvalue Hfield.
  rewrite (extractIncludedRelations_eq _ _ _ Hargs), Hinc.
  apply in_or_app. left. eapply In_omap; [exact Hin |].
  unfold includedBy. simpl. rewrite Hfield, Hvalue. reflexivity.
Qed.

(** A relation named in [select] with an object value is extracted. *)
Lemma selected_relation_extracted (schema : Schema) (m : string) (queryArgs : JsValue)
    (fieldName : string) (value : JsValue) (field : FieldDefinition) :
  is_object queryArgs = true ->
  is_object (get queryArgs "select") = true ->
  In (fieldName, value) (Object_entries (get queryArgs "select")) ->
  is_object value = true ->
  relation_field (getModelFields schema m) fieldName = Some field ->
  In (f_type field) (extractIncludedRelations schema queryArgs m).
Proof.
  intros Hargs Hsel Hin Hvalue Hfield.
  rewrite (extractIncludedRelations_eq _ _ _ Hargs), Hsel.
  apply in_or_app. right. eapply In_omap; [exact Hin |].
  unfold selectedBy. simpl. rewrite Hfield. fold (is_object value). rewrite Hvalue. reflexivity.
Qed.

(** The widening tags are the list tags of the extracted models that are
    not excluded. *)
Lemma In_wideningTags (schema : Schema) (options : NextjsCachePluginOptions)
    (m : string) (queryArgs : JsValue) (tag : string) :
  In tag (wideningTags schema options m queryArgs) <->
  exists relatedModel,
    tag = listTag relatedModel
    /\ In relatedModel (extractIncludedRelations schema queryArgs m)
    /\ isExcludedModel schema options relatedModel = false.
Proof.
  unfold wideningTags. rewrite in_map_iff. split.
  - intros (r & <- & Hr). apply filter_In in Hr as [Hr Hex].
    exists r. apply negb_true_iff in Hex. auto.
  - intros (r & -> & Hr & Hex). exists r. split; [reflexivity |].
    apply filter_In. rewrite Hex. auto.
Qed.

(** C5.  With the default tags, a read of Post, whose field [author] is a
    relation to User, under [{include: {author: true}}] is tagged
    [post:list] and [user:list], and under [{}] exactly [post:list].  In
    general a relation field adds the list tag of its target when
    [include] names it with a truthy value or [select] names it with an
    object value, and every tag added this way belongs to a model that is
    not excluded. *)
Theorem read_time_widening (schema : Schema) (options : NextjsCachePluginOptions) :
  (forall author : FieldDefinition,
     relation_field (getModelFields schema "Post") "author" = Some author ->
     f_type author = "User" ->
     customTagGenerator options = None ->
     declared_cache_tags schema "Post" = JUndefined ->
     isExcludedModel schema options "User" = false ->
     let tags := readTags schema options "Post" (JObj [("include", JObj [("author", JBool true)])]) in
     In "post:list" tags /\ In "user:list" tags
     /\ readTags schema options "Post" (JObj []) = ["post:list"])
  /\ (forall (m : string) (queryArgs : JsValue) (fieldName : string) (value : JsValue)
             (field : FieldDefinition),
        is_object queryArgs = true ->
        relation_field (getModelFields schema m) fieldName = Some field ->
        isExcludedModel schema options (f_type field) = false ->
        (is_object (get queryArgs "include") = true
         /\ In (fieldName, value) (Object_entries (get queryArgs "include"))
         /\ truthy value = true)
        \/ (is_object (get queryArgs "select") = true
            /\ In (fieldName, value) (Object_entries (get queryArgs "select"))
            /\ is_object value = true) ->
        In (listTag (f_type field)) (readTags schema options m queryArgs))
  /\ (forall (m : string) (queryArgs : JsValue),
        exists added,
          readTags schema options m queryArgs
          = getTagsForModel schema options m (extractIdFromArgs queryArgs) ++ map listTag added
          /\ forall relatedModel, In relatedModel added ->
               isExcludedModel schema options relatedModel = false
               /\ In relatedModel (extractIncludedRelations schema queryArgs m)).
Proof.
  split; [| split].
  - intros author Hauthor Htype Hgen Hdeclared Hexcluded tags.
    assert (Hmodel : forall id, getTagsForModel schema options "Post" id
                                = generateCacheTags "Post" id None).
    { intros id. unfold getTagsForModel, getCustomTags.
      fold (declared_cache_tags schema "Post"). rewrite Hgen, Hdeclared. reflexivity. }
    assert (Htags : tags = ["post:list"; "user:list"]).
    { subst tags. rewrite readTags_eq, Hmodel. unfold wideningTags.
      rewrite extractIncludedRelations_eq by reflexivity. simpl.
      unfold includedBy. simpl. rewrite Hauthor, Htype. csimpl.
      rewrite Hexcluded. reflexivity. }
    rewrite Htags. split; [simpl; auto |]. split; [simpl; auto |].
    rewrite readTags_eq, Hmodel. unfold wideningTags.
    rewrite extractIncludedRelations_eq by reflexivity. reflexivity.
  - intros m queryArgs fieldName value field Hargs Hfield Hexcluded Hnamed.
    rewrite readTags_eq. apply in_or_app. right.
    apply In_wideningTags. exists (f_type field). split; [reflexivity |].
    split; [| exact Hexcluded].
    destruct Hnamed as [(Hinc & Hin & Hvalue) | (Hsel & Hin & Hvalue)].
    + eapply included_relation_extracted; eassumption.
    + eapply selected_relation_extracted; eassumption.
  - intros m queryArgs.
    exists (List.filter (fun r => negb (isExcludedModel schema options r))
                        (extractIncludedRelations schema queryArgs m)).
    split; [apply readTags_eq |].
    intros r Hr. apply filter_In in Hr as [Hr Hex].
    apply negb_true_iff in Hex. auto.
Qed.

Lemma read_time_widening_witness :
  let tags := readTags test_schema no_options "Post"
                (JObj [("include", JObj [("author", JBool true)])]) in
  In "post:list" tags /\ In "user:list" tags
  /\ readTags test_schema no_options "Post" (JObj []) = ["post:list"].
Proof.
  apply (proj1 (read_time_widening test_schema no_options)
           {| f_name := "author"; f_type := "User";
              f_relation := Some {| r_opposite := Some "posts"; r_fields := Some ["authorId"];
                                    r_references := Some ["id"] |} |});
    vm_compute; reflexivity.
Defined.

(** ** The calls of a read *)

(** What [call_executor] leaves behind. *)
Lemma call_executor_calls {E : Type} (c : Call) (run : E -> Completion JsValue * E)
    (w : World E) :
  calls (call_executor c run w).2 = calls w ++ [c]
  /\ store (call_executor c run w).2 = store w.
Proof.
  unfold call_executor. destruct (run (executor w)); simpl. split; reflexivity.
Qed.

(** A read of a model that is not excluded, in a context where the data
    cache runs, calls [unstable_cache] once, with the key of
    [generateCacheKey], the seconds of the model's life profile and the tags
    of [readTags]; every other call it makes is a call of [proceed]. *)
Lemma onQuery_read_calls {E : Type} (schema : Schema) (Date_parse : string -> option Z)
    (RuntimeDecimal : option (JsValue -> Completion JsValue))
    (options : NextjsCachePluginOptions) (next : NextCache)
    (ctx : QueryContext E) (w : World E) :
  isExcludedModel schema options (model ctx) = false ->
  isReadOperation (operation ctx) = true ->
  import_resolves next = true ->
  unstable_cache_runs next = true ->
  exists rest,
    calls (onQuery schema Date_parse RuntimeDecimal options next ctx w).2
    = calls w
      ++ Call_unstable_cache
           (generateCacheKey (model ctx) (operation ctx) (args ctx) (client_auth ctx ≫= auth_id))
           (getCacheRevalidateSeconds (getLifeForModel schema options (model ctx)))
           (readTags schema options (model ctx) (args ctx))
         :: rest
    /\ Forall is_proceed rest.
Proof.
  intros Hexcluded Hread Himport Hruns.
  unfold onQuery. rewrite Hexcluded, Hread.
  unfold try_catch, abind, import_next_cache, unstable_cache, lift, ret.
  rewrite Himport, Hruns. simpl.
  repeat match goal with
         | |- context [lookup_entry ?k ?s] => destruct (lookup_entry k s)
         | |- context [call_executor ?c ?r ?w'] =>
             let H := fresh "Hcall" in
             let o := fresh "outcome" in
             let w'' := fresh "w" in
             destruct (call_executor_calls c r w') as [H _];
             destruct (call_executor c r w') as [o w''];
             simpl in H; destruct o
         | |- context [transformDates ?v] => destruct (transformDates v)
         | |- context [restoreDates ?s ?p ?d ?v ?m] => destruct (restoreDates s p d v m)
         end;
    simpl;
    repeat match goal with
           | H : calls _ = _ |- _ => rewrite H; clear H
           end;
    rewrite <- ?app_assoc; simpl;
    eexists; (split; [reflexivity | repeat constructor]).
Qed.

(** Two reads of the same (model, operation, args, caller id) hand the same
    key to the data cache, whatever the schemas, options, worlds and
    executors of the two runs. *)
Lemma cached_reads_share_their_key {E1 E2 : Type} (schema1 schema2 : Schema)
    (Date_parse1 Date_parse2 : string -> option Z)
    (Decimal1 Decimal2 : option (JsValue -> Completion JsValue))
    (options1 options2 : NextjsCachePluginOptions) (next1 next2 : NextCache)
    (ctx1 : QueryContext E1) (ctx2 : QueryContext E2) (w1 : World E1) (w2 : World E2)
    (key1 key2 : list string) (seconds1 seconds2 : Z) (tags1 tags2 : list string)
    (rest1 rest2 : list Call) :
  model ctx1 = model ctx2 -> operation ctx1 = operation ctx2 -> args ctx1 = args ctx2 ->
  client_auth ctx1 ≫= auth_id = client_auth ctx2 ≫= auth_id ->
  isExcludedModel schema1 options1 (model ctx1) = false ->
  isExcludedModel schema2 options2 (model ctx2) = false ->
  isReadOperation (operation ctx1) = true ->
  import_resolves next1 = true -> unstable_cache_runs next1 = true ->
  import_resolves next2 = true -> unstable_cache_runs next2 = true ->
  calls (onQuery schema1 Date_parse1 Decimal1 options1 next1 ctx1 w1).2
  = calls w1 ++ Call_unstable_cache key1 seconds1 tags1 :: rest1 ->
  calls (onQuery schema2 Date_parse2 Decimal2 options2 next2 ctx2 w2).2
  = calls w2 ++ Call_unstable_cache key2 seconds2 tags2 :: rest2 ->
  key1 = key2.
Proof.
  intros Hmodel Hoperation Hargs Hauth Hex1 Hex2 Hread Hi1 Hr1 Hi2 Hr2 Hcalls1 Hcalls2.
  destruct (onQuery_read_calls schema1 Date_parse1 Decimal1 options1 next1 ctx1 w1
              Hex1 Hread Hi1 Hr1) as (r1 & Hc1 & _).
  rewrite Hoperation in Hread.
  destruct (onQuery_read_calls schema2 Date_parse2 Decimal2 options2 next2 ctx2 w2
              Hex2 Hread Hi2 Hr2) as (r2 & Hc2 & _).
  rewrite Hcalls1 in Hc1. rewrite Hcalls2 in Hc2.
  apply app_inv_head in Hc1, Hc2.
  injection Hc1 as -> _ _ _. injection Hc2 as -> _ _ _.
  rewrite Hmodel, Hoperation, Hargs, Hauth. reflexivity.
Qed.

(** C10.  For a read of a model that is not excluded, the tags handed to
    the data cache are the tags of the model followed by the widening tags.
    This also holds with a custom tag generator: its output is then only a
    prefix, and never the whole list when the query includes or selects a
    relation whose target is not excluded. *)
Theorem widening_follows_model_tags {E : Type} (schema : Schema)
    (Date_parse : string -> option Z)
    (RuntimeDecimal : option (JsValue -> Completion JsValue))
    (options : NextjsCachePluginOptions) (next : NextCache)
    (ctx : QueryContext E) (w : World E) :
  isExcludedModel schema options (model ctx) = false ->
  isReadOperation (operation ctx) = true ->
  import_resolves next = true ->
  unstable_cache_runs next = true ->
  let modelTags := getTagsForModel schema options (model ctx) (extractIdFromArgs (args ctx)) in
  let widening := wideningTags schema options (model ctx) (args ctx) in
  (exists keyParts seconds rest,
     calls (onQuery schema Date_parse RuntimeDecimal options next ctx w).2
     = calls w ++ Call_unstable_cache keyParts seconds (modelTags ++ widening) :: rest
     /\ Forall is_proceed rest)
  /\ (forall generator,
        customTagGenerator options = Some generator ->
        modelTags = generator (model ctx) (extractIdFromArgs (args ctx)))
  /\ (forall relatedModel,
        In relatedModel (extractIncludedRelations schema (args ctx) (model ctx)) ->
        isExcludedModel schema options relatedModel = false ->
        In (listTag relatedModel) widening /\ modelTags ++ widening <> modelTags).
Proof.
  intros Hexcluded Hread Himport Hruns modelTags widening.
  split; [| split].
  - destruct (onQuery_read_calls schema Date_parse RuntimeDecimal options next ctx w
                Hexcluded Hread Himport Hruns) as (rest & Hcalls & Hrest).
    rewrite readTags_eq in Hcalls. eauto.
  - intros generator Hgen. subst modelTags. unfold getTagsForModel. rewrite Hgen. reflexivity.
  - intros r Hr Hex.
    assert (Hin : In (listTag r) widening).
    { apply In_wideningTags. exists r. auto. }
    split; [exact Hin |].
    intros Heq. rewrite <- (app_nil_r modelTags) in Heq at 2.
    apply app_inv_head in Heq. rewrite Heq in Hin. exact Hin.
Qed.

Lemma widening_follows_model_tags_witness :
  (exists keyParts seconds rest,
     calls (onQuery test_schema Date_parse_utc None versioned_options test_next
              (query_on "Post" "findMany" (JObj [("include", JObj [("author", JBool true)])]))
              (new_world [Normal (JArr [])])).2
     = [] ++ Call_unstable_cache keyParts seconds (["v1:post:list"] ++ ["user:list"]) :: rest
     /\ Forall is_proceed rest)
  /\ (forall generator,
        Some versioned_tags = Some generator ->
        ["v1:post:list"] = generator "Post" None)
  /\ (forall relatedModel,
        In relatedModel ["User"] ->
        isExcludedModel test_schema versioned_options relatedModel = false ->
        In (listTag relatedModel) ["user:list"]
        /\ ["v1:post:list"] ++ ["user:list"] <> ["v1:post:list"]).
Proof.
  apply (widening_follows_model_tags test_schema Date_parse_utc None versioned_options test_next
           (query_on "Post" "findMany" (JObj [("include", JObj [("author", JBool true)])]))
           (new_world [Normal (JArr [])]));
    vm_compute; reflexivity.
Defined.

(** ** Invalidation after a mutation *)

Lemma add_calls_nil {E : Type} (w : World E) : add_calls [] w = w.
Proof. destruct w. unfold add_calls. simpl. rewrite app_nil_r. reflexivity. Qed.

Lemma add_calls_add_calls {E : Type} (cs1 cs2 : list Call) (w : World E) :
  add_calls cs2 (add_calls cs1 w) = add_calls (cs1 ++ cs2) w.
Proof. unfold add_calls. simpl. rewrite app_assoc. reflexivity. Qed.

Section Invalidation.

Context {E : Type} (next : NextCache).
Hypothesis import_ok : import_resolves next = true.
Hypothesis primitive_ok : updateTag_runs next || revalidateTag_runs next = true.

(** Where a primitive runs, invalidating a tag makes exactly one call and
    never throws. *)
Lemma invalidateTag_runs (tag : string) (w : World E) :
  invalidateTag next tag w = (Normal tt, add_calls [invalidation next tag] w).
Proof.
  unfold invalidateTag, try_catch, abind, import_next_cache, updateTag, revalidateTag,
    invalidation, ret.
  rewrite import_ok. simpl.
  destruct (updateTag_runs next); simpl in *; [reflexivity |].
  rewrite primitive_ok. reflexivity.
Qed.

(** A loop that invalidates one tag for each element that passes a test. *)
Lemma for_of_invalidate {A : Type} (keep : A -> bool) (tagOf : A -> string) (l : list A)
    (w : World E) :
  for_of l (fun x => if keep x then invalidateTag next (tagOf x) else ret tt) w
  = (Normal tt, add_calls (map (invalidation next) (map tagOf (List.filter keep l))) w).
Proof.
  revert w. induction l as [| x l IH]; intros w; simpl.
  - unfold ret. rewrite add_calls_nil. reflexivity.
  - unfold abind at 1. destruct (keep x); simpl.
    + rewrite invalidateTag_runs, IH, add_calls_add_calls. reflexivity.
    + unfold ret at 1. apply IH.
Qed.

Lemma invalidateRelatedModelCache_runs (relatedModel : string) (w : World E) :
  invalidateRelatedModelCache next relatedModel w
  = (Normal tt, add_calls [invalidation next (listTag relatedModel)] w).
Proof.
  unfold invalidateRelatedModelCache, try_catch.
  fold (listTag relatedModel). rewrite invalidateTag_runs. reflexivity.
Qed.

(** The loop over the related models. *)
Lemma for_of_related (keep : string -> bool) (l : list string) (w : World E) :
  for_of l (fun relatedModel =>
              if keep relatedModel then invalidateRelatedModelCache next relatedModel
              else ret tt) w
  = (Normal tt, add_calls (map (invalidation next) (map listTag (List.filter keep l))) w).
Proof.
  revert w. induction l as [| x l IH]; intros w; simpl.
  - unfold ret. rewrite add_calls_nil. reflexivity.
  - unfold abind at 1. destruct (keep x); simpl.
    + rewrite invalidateRelatedModelCache_runs, IH, add_calls_add_calls. reflexivity.
    + unfold ret at 1. apply IH.
Qed.

End Invalidation.

(** C6.  After a mutation of [m], in a context where an invalidation
    primitive runs, the hook invalidates in this order: the list tag of
    [m]; then, the rows being loaded, the entity tag of every row that
    carries an id; then the list tag of every related model that is not
    excluded.  It makes no other call and never fails. *)
Theorem invalidation_order {E : Type} (schema : Schema) (Date_toString : Z -> string)
    (options : NextjsCachePluginOptions) (next : NextCache)
    (mutation : MutationArgs E) (w : World E) :
  import_resolves next = true ->
  updateTag_runs next || revalidateTag_runs next = true ->
  let m := mutated_model mutation in
  let rows := loadedRows (loadAfterMutationEntities mutation (executor w)).1 in
  let after := afterEntityMutation schema Date_toString options next mutation w in
  after.1 = Normal tt
  /\ calls after.2
     = calls w
       ++ [invalidation next (listTag m); Call_loadEntities]
       ++ map (invalidation next) (entityTags Date_toString m rows)
       ++ map (invalidation next) (relatedListTags schema options m)
  /\ invalidatedTags (calls after.2)
     = invalidatedTags (calls w)
       ++ [listTag m] ++ entityTags Date_toString m rows ++ relatedListTags schema options m.
Proof.
  intros Himport Hprimitive m rows after.
  assert (Hafter : after.1 = Normal tt
                   /\ calls after.2
                      = calls w
                        ++ [invalidation next (listTag m); Call_loadEntities]
                        ++ map (invalidation next) (entityTags Date_toString m rows)
                        ++ map (invalidation next) (relatedListTags schema options m)).
  { subst after rows. unfold afterEntityMutation. fold m.
    unfold abind at 1.
    unfold invalidateCacheForModel, try_catch, abind.
    rewrite (invalidateTag_runs next Himport Hprimitive).
    unfold call_executor. simpl.
    destruct (loadAfterMutationEntities mutation (executor w)) as [outcome e'].
    assert (Hrelated : forall w0 : World E,
               for_of (getRelatedModels schema m)
                 (fun relatedModel =>
                    if negb (isExcludedModel schema options relatedModel)
                    then invalidateRelatedModelCache next relatedModel
                    else ret tt) w0
               = (Normal tt,
                  add_calls (map (invalidation next) (relatedListTags schema options m)) w0)).
    { intros w0. unfold relatedListTags.
      apply (for_of_related next Himport Hprimitive
               (fun r => negb (isExcludedModel schema options r))). }
    assert (Hfinish : forall (w0 : World E) (tags : list string),
               calls w0 = ((calls w ++ [invalidation next (listTag m)]) ++ [Call_loadEntities])
                          ++ map (invalidation next) tags ->
               let related :=
                 for_of (getRelatedModels schema m)
                   (fun relatedModel =>
                      if negb (isExcludedModel schema options relatedModel)
                      then invalidateRelatedModelCache next relatedModel
                      else ret tt) w0 in
               related.1 = Normal tt
               /\ calls related.2
                  = calls w ++ [invalidation next (listTag m); Call_loadEntities]
                    ++ map (invalidation next) tags
                    ++ map (invalidation next) (relatedListTags schema options m)).
    { intros w0 tags Hw0 related. subst related. rewrite Hrelated. simpl.
      split; [reflexivity |]. rewrite Hw0, <- !app_assoc. reflexivity. }
    fold (listTag m).
    destruct outcome as [entities | e]; simpl.
    - destruct entities; simpl;
        try (apply (Hfinish _ []); simpl; rewrite app_nil_r; reflexivity).
      change (fun entity : JsValue =>
                if truthy entity && typeof_object entity && has_property "id" entity
                then invalidateTag next
                       (String_toLowerCase m +:+ ":" +:+ ToString Date_toString (get entity "id"))
                else ret tt)
        with (fun entity : JsValue =>
                if carries_id entity
                then invalidateTag next (entityTag Date_toString m entity)
                else @ret E unit tt).
      rewrite (for_of_invalidate next Himport Hprimitive carries_id
                 (entityTag Date_toString m)).
      apply (Hfinish _ (entityTags Date_toString m items)). reflexivity.
    - apply (Hfinish _ []). simpl. rewrite app_nil_r. reflexivity. }
  destruct Hafter as [Hout Hcalls].
  split; [exact Hout |]. split; [exact Hcalls |].
  rewrite Hcalls. unfold invalidatedTags.
  assert (Hinv : forall tags, omap invalidatedTag (map (invalidation next) tags) = tags).
  { induction tags as [| t tags IH]; csimpl; [reflexivity |].
    unfold invalidation at 1. destruct (updateTag_runs next); csimpl; rewrite IH; reflexivity. }
  rewrite !omap_app, !Hinv. csimpl.
  unfold invalidation. destruct (updateTag_runs next); reflexivity.
Qed.

Lemma invalidation_order_witness :
  let after :=
    afterEntityMutation test_schema host_date_text no_options test_next (mutation_of "User")
      (new_world [Normal (JArr [JObj [("id", JStr "user-1"); ("name", JStr "Updated User")];
                                JObj [("name", JStr "no id")]])]) in
  after.1 = Normal tt
  /\ calls after.2
     = [Call_revalidateTag "user:list" "max"; Call_loadEntities;
        Call_revalidateTag "user:user-1" "max";
        Call_revalidateTag "comment:list" "max"; Call_revalidateTag "post:list" "max"]
  /\ invalidatedTags (calls after.2)
     = ["user:list"; "user:user-1"; "comment:list"; "post:list"].
Proof.
  apply (invalidation_order test_schema host_date_text no_options test_next (mutation_of "User")
           (new_world [Normal (JArr [JObj [("id", JStr "user-1"); ("name", JStr "Updated User")];
                                     JObj [("name", JStr "no id")]])]));
    reflexivity.
Defined.

(** ** Failure of the executor during a read *)

(** A query on an excluded model, and a write, are handed to the executor
    as they are: one call of [proceed], whose outcome is the outcome. *)
Lemma onQuery_passes_through {E : Type} (schema : Schema) (Date_parse : string -> option Z)
    (RuntimeDecimal : option (JsValue -> Completion JsValue))
    (options : NextjsCachePluginOptions) (next : NextCache)
    (ctx : QueryContext E) (w : World E) :
  isExcludedModel schema options (model ctx) = true \/ isReadOperation (operation ctx) = false ->
  onQuery schema Date_parse RuntimeDecimal options next ctx w
  = call_executor (Call_proceed (args ctx)) (proceed ctx (args ctx)) w.
Proof.
  intros [Hexcluded | Hwrite]; unfold onQuery.
  - rewrite Hexcluded. reflexivity.
  - rewrite Hwrite. destruct (isExcludedModel schema options (model ctx)); reflexivity.
Qed.

(** On a cache miss, a rejection of [proceed] inside the cached callback
    is caught by the [try] around [unstable_cache], and the handler runs the
    query once more: the outcome of the read is the outcome of that second
    run.  Nothing is written to the cache. *)
Lemma onQuery_read_failure_retries {E : Type} (schema : Schema)
    (Date_parse : string -> option Z)
    (RuntimeDecimal : option (JsValue -> Completion JsValue))
    (options : NextjsCachePluginOptions) (next : NextCache)
    (ctx : QueryContext E) (w : World E) (failure : JsError) (e1 : E) :
  isExcludedModel schema options (model ctx) = false ->
  isReadOperation (operation ctx) = true ->
  import_resolves next = true ->
  unstable_cache_runs next = true ->
  let keyParts :=
    generateCacheKey (model ctx) (operation ctx) (args ctx) (client_auth ctx ≫= auth_id) in
  lookup_entry keyParts (store w) = None ->
  proceed ctx (args ctx) (executor w) = (Throw failure, e1) ->
  onQuery schema Date_parse RuntimeDecimal options next ctx w
  = directQuery schema Date_parse RuntimeDecimal ctx
      {| executor := e1; store := store w;
         calls := (calls w
                   ++ [Call_unstable_cache keyParts
                         (getCacheRevalidateSeconds (getLifeForModel schema options (model ctx)))
                         (readTags schema options (model ctx) (args ctx))])
                  ++ [Call_proceed (args ctx)] |}
  /\ store (onQuery schema Date_parse RuntimeDecimal options next ctx w).2 = store w.
Proof.
  intros Hexcluded Hread Himport Hruns keyParts Hmiss Hfails.
  assert (Hrun : onQuery schema Date_parse RuntimeDecimal options next ctx w
                 = directQuery schema Date_parse RuntimeDecimal ctx
                     {| executor := e1; store := store w;
                        calls := (calls w
                                  ++ [Call_unstable_cache keyParts
                                        (getCacheRevalidateSeconds
                                           (getLifeForModel schema options (model ctx)))
                                        (readTags schema options (model ctx) (args ctx))])
                                 ++ [Call_proceed (args ctx)] |}).
  { unfold onQuery. rewrite Hexcluded, Hread.
    unfold try_catch at 1. unfold abind at 1. unfold import_next_cache.
    rewrite Himport. unfold ret at 1. unfold abind at 1. unfold unstable_cache.
    rewrite Hruns. simpl. fold keyParts. rewrite Hmiss.
    unfold abind at 1. unfold call_executor at 1. simpl. rewrite Hfails. reflexivity. }
  split; [exact Hrun |].
  rewrite Hrun. unfold directQuery, abind, call_executor, lift. simpl.
  destruct (proceed ctx (args ctx) e1) as [[result |] e2]; simpl; [| reflexivity].
  destruct (transformDates result); simpl; reflexivity.
Qed.

(** C1 fails on the code.  A read of User with an empty cache, in a
    context where [unstable_cache] runs, against an executor whose first
    answer is a rejection: [proceed] is called twice.  When its second
    answer is a result, the read returns that result and the rejection is
    lost; when it is another rejection, the caller gets the second one.
    (Nothing is cached either way.)  The paths that do not go through
    [unstable_cache] behave as the claim says: a write, and a read in a
    process without Next.js, call [proceed] once and pass its rejection on. *)
Theorem read_failure_is_retried :
  let read := query_on "User" "findMany" (JObj []) in
  let cached_read := Call_unstable_cache ["user:findMany"; "{}"] 3600 ["user:list"] in
  let run next ctx script :=
    onQuery test_schema Date_parse_utc None no_options next ctx (new_world script) in
  ((run server_action read [Throw connection_lost; Normal user_rows]).1 = Normal user_rows
   /\ calls (run server_action read [Throw connection_lost; Normal user_rows]).2
      = [cached_read; Call_proceed (JObj []); Call_proceed (JObj [])]
   /\ store (run server_action read [Throw connection_lost; Normal user_rows]).2 = [])
  /\ ((run server_action read [Throw connection_lost; Throw still_down]).1 = Throw still_down
      /\ calls (run server_action read [Throw connection_lost; Throw still_down]).2
         = [cached_read; Call_proceed (JObj []); Call_proceed (JObj [])])
  /\ ((run no_next read [Throw connection_lost; Normal user_rows]).1 = Throw connection_lost
      /\ calls (run no_next read [Throw connection_lost; Normal user_rows]).2
         = [Call_proceed (JObj [])])
  /\ ((run server_action (query_on "User" "create" (JObj []))
         [Throw connection_lost; Normal user_rows]).1 = Throw connection_lost
      /\ calls (run server_action (query_on "User" "create" (JObj []))
                  [Throw connection_lost; Normal user_rows]).2
         = [Call_proceed (JObj [])]).
Proof.
  cbv zeta. repeat split; vm_compute; reflexivity.
Qed.

(** ** The date codec *)

Lemma digit_cases (n : Z) :
  let r := n mod 10 in
  r = 0 \/ r = 1 \/ r = 2 \/ r = 3 \/ r = 4 \/ r = 5 \/ r = 6 \/ r = 7 \/ r = 8 \/ r = 9.
Proof. intros r. subst r. pose proof (Z.mod_pos_bound n 10). lia. Qed.

Lemma digit_value_digit_char (n : Z) : digit_value (digit_char n) = Some (n mod 10).
Proof.
  unfold digit_char.
  destruct (digit_cases n) as [H | [H | [H | [H | [H | [H | [H | [H | [H | H]]]]]]]]];
    rewrite H; reflexivity.
Qed.

Lemma is_digit_digit_char (n : Z) : is_digit (digit_char n) = true.
Proof.
  unfold digit_char.
  destruct (digit_cases n) as [H | [H | [H | [H | [H | [H | [H | [H | [H | H]]]]]]]]];
    rewrite H; reflexivity.
Qed.

(** Within an era, the calendar date of a day leads back to the day. *)
Lemma era_day_roundtrip (doe y m d : Z) :
  0 <= doe <= 146096 ->
  civil_of_era_day doe = (y, m, d) ->
  1 <= m <= 12 /\ 1 <= d /\ days_from_civil y m d = doe - 719468.
Proof.
  intros Hdoe. unfold civil_of_era_day, days_from_civil.
  intros [= <- <- <-].
  repeat match goal with
         | |- context [if ?b then _ else _] => destruct b eqn:?
         end;
    Z.div_mod_to_equations; lia.
Qed.

(** Within an era, the day of the month of a day exists in its month. *)
Lemma era_day_in_month (doe y m d : Z) :
  0 <= doe <= 146096 ->
  civil_of_era_day doe = (y, m, d) ->
  d <= days_in_month y m.
Proof.
  intros Hdoe. unfold civil_of_era_day, days_in_month, is_leap_year.
  intros [= <- <- <-].
  set (yoe := (doe - doe / 1460 + doe / 36524 - doe / 146096) / 365).
  set (doy := doe - (365 * yoe + yoe / 4 - yoe / 100)).
  set (mp := (5 * doy + 2) / 153).
  set (m := if mp <? 10 then mp + 3 else mp - 9).
  set (y := yoe + (if m <=? 2 then 1 else 0)).
  destruct (Z.eqb_spec m 2) as [Hm2 | Hm2].
  - (* February: 29 days in a leap year *)
    destruct (Z.eqb_spec (y mod 400) 0), (Z.eqb_spec (y mod 100) 0), (Z.eqb_spec (y mod 4) 0);
      simpl; subst y m mp doy yoe;
      repeat match goal with
             | H : context [if ?b then _ else _] |- _ => destruct b eqn:?
             | |- context [if ?b then _ else _] => destruct b eqn:?
             end;
      Z.div_mod_to_equations; lia.
  - destruct (Z.eqb_spec m 4), (Z.eqb_spec m 6), (Z.eqb_spec m 9), (Z.eqb_spec m 11); simpl;
      subst y m mp doy yoe;
      repeat match goal with
             | H : context [if ?b then _ else _] |- _ => destruct b eqn:?
             | |- context [if ?b then _ else _] => destruct b eqn:?
             end;
      Z.div_mod_to_equations; lia.
Qed.

Lemma is_leap_year_era (y era : Z) : is_leap_year (y + era * 400) = is_leap_year y.
Proof.
  unfold is_leap_year.
  replace ((y + era * 400) mod 4) with (y mod 4) by (Z.div_mod_to_equations; lia).
  replace ((y + era * 400) mod 100) with (y mod 100) by (Z.div_mod_to_equations; lia).
  replace ((y + era * 400) mod 400) with (y mod 400) by (Z.div_mod_to_equations; lia).
  reflexivity.
Qed.

Lemma days_in_month_era (y era m : Z) : days_in_month (y + era * 400) m = days_in_month y m.
Proof. unfold days_in_month. rewrite is_leap_year_era. reflexivity. Qed.

Lemma days_from_civil_era (y era m d : Z) :
  days_from_civil (y + era * 400) m d = days_from_civil y m d + era * 146097.
Proof.
  unfold days_from_civil.
  destruct (m <=? 2).
  - replace ((y + era * 400 - 1) / 400) with ((y - 1) / 400 + era)
      by (Z.div_mod_to_equations; lia).
    replace ((y + era * 400 - 1) mod 400) with ((y - 1) mod 400)
      by (Z.div_mod_to_equations; lia).
    lia.
  - replace ((y + era * 400) / 400) with (y / 400 + era) by (Z.div_mod_to_equations; lia).
    replace ((y + era * 400) mod 400) with (y mod 400) by (Z.div_mod_to_equations; lia).
    lia.
Qed.

(** The calendar date of a day number is a date of the calendar, and
    [days_from_civil] leads back to the day number. *)
Lemma civil_from_days_spec (day y m d : Z) :
  civil_from_days day = (y, m, d) ->
  1 <= m <= 12 /\ 1 <= d <= days_in_month y m /\ days_from_civil y m d = day.
Proof.
  unfold civil_from_days.
  pose proof (Z.mod_pos_bound (day + 719468) 146097 eq_refl) as Hdoe.
  pose proof (Z.div_mod (day + 719468) 146097) as Hz.
  destruct (civil_of_era_day ((day + 719468) mod 146097)) as [[y0 m0] d0] eqn:Hcivil.
  intros [= <- <- <-].
  assert (Hrange : 0 <= (day + 719468) mod 146097 <= 146096) by lia.
  destruct (era_day_roundtrip _ _ _ _ Hrange Hcivil) as (Hm & Hd & Hday).
  pose proof (era_day_in_month _ _ _ _ Hrange Hcivil) as Hdim.
  rewrite days_in_month_era, days_from_civil_era.
  lia.
Qed.

Lemma two_digits (n : Z) : 0 <= n <= 99 -> 10 * (10 * 0 + (n / 10) mod 10) + n mod 10 = n.
Proof. intros. Z.div_mod_to_equations. lia. Qed.

Lemma three_digits (n : Z) :
  0 <= n <= 999 -> 10 * (10 * (10 * 0 + (n / 10 / 10) mod 10) + (n / 10) mod 10) + n mod 10 = n.
Proof. intros. Z.div_mod_to_equations. lia. Qed.

Lemma four_digits (n : Z) :
  0 <= n <= 9999 ->
  10 * (10 * (10 * (10 * 0 + (n / 10 / 10 / 10) mod 10) + (n / 10 / 10) mod 10) + (n / 10) mod 10)
  + n mod 10 = n.
Proof. intros. Z.div_mod_to_equations. lia. Qed.

Lemma iso_text_matches (y m d hh mm ss ms : Z) :
  RegExp_test ISO_DATE_REGEX (iso_text y m d hh mm ss ms) = true.
Proof.
  unfold iso_text, RegExp_test, ISO_DATE_REGEX.
  cbv [pad String.append].
  cbn [matches_prefix].
  rewrite !is_digit_digit_char. reflexivity.
Qed.

Lemma iso_text_parses (y m d hh mm ss ms : Z) :
  0 <= y <= 9999 -> 1 <= m <= 12 -> 1 <= d <= days_in_month y m ->
  0 <= hh <= 23 -> 0 <= mm <= 59 -> 0 <= ss <= 59 -> 0 <= ms <= 999 ->
  Date_parse_utc (iso_text y m d hh mm ss ms)
  = Some (days_from_civil y m d * msPerDay + hh * 3600000 + mm * 60000 + ss * 1000 + ms).
Proof.
  intros Hy Hm Hd Hhh Hmm Hss Hms.
  assert (Hdim : days_in_month y m <= 31).
  { unfold days_in_month. repeat destruct (_ =? _); try destruct (is_leap_year y); simpl; lia. }
  unfold iso_text, Date_parse_utc.
  cbv [pad String.append].
  cbv [read_digits read_char mbind option_bind].
  repeat (progress (rewrite ?digit_value_digit_char, ?Ascii.eqb_refl; cbv beta iota)).
  rewrite (four_digits y), (two_digits m), (two_digits d), (two_digits hh), (two_digits mm),
    (two_digits ss), (three_digits ms) by lia.
  change (String.eqb "" "") with true.
  rewrite !(proj2 (Z.leb_le _ _)) by lia.
  reflexivity.
Qed.

(** Hours, minutes, seconds and milliseconds make up the time within the day. *)
Lemma time_within_day (t : Z) :
  0 <= HourFromTime t <= 23 /\ 0 <= MinFromTime t <= 59 /\ 0 <= SecFromTime t <= 59
  /\ 0 <= msFromTime t <= 999
  /\ Day t * msPerDay + HourFromTime t * 3600000 + MinFromTime t * 60000
     + SecFromTime t * 1000 + msFromTime t = t.
Proof.
  unfold HourFromTime, MinFromTime, SecFromTime, msFromTime, Day, msPerDay.
  Z.div_mod_to_equations. lia.
Qed.

(** The ISO string of a time value whose year has four digits matches
    [ISO_DATE_REGEX] and parses back to the time value. *)
Lemma ISOString_roundtrip (t : Z) :
  0 <= YearFromTime t <= 9999 ->
  RegExp_test ISO_DATE_REGEX (ISOString_of_time t) = true
  /\ Date_parse_utc (ISOString_of_time t) = Some t.
Proof.
  unfold YearFromTime, ISOString_of_time. intros Hyear.
  destruct (civil_from_days (Day t)) as [[y m] d] eqn:Hcivil. simpl in Hyear.
  destruct (civil_from_days_spec _ _ _ _ Hcivil) as (Hm & Hd & Hday).
  destruct (time_within_day t) as (Hhh & Hmm & Hss & Hms & Ht).
  unfold year_string.
  rewrite (proj2 (Z.leb_le 0 y)), (proj2 (Z.leb_le y 9999)) by lia. simpl andb. cbv iota.
  fold (iso_text y m d (HourFromTime t) (MinFromTime t) (SecFromTime t) (msFromTime t)).
  split; [apply iso_text_matches |].
  rewrite iso_text_parses by assumption.
  rewrite Hday, Ht. reflexivity.
Qed.

(** Structural induction on values, with the hypothesis on every element
    of an array and on every property value of an object. *)
Lemma JsValue_induction (P : JsValue -> Prop) :
  P JUndefined -> P JNull ->
  (forall b, P (JBool b)) -> (forall n, P (JNum n)) -> (forall s, P (JStr s)) ->
  (forall t, P (JDate t)) ->
  (forall repr own, Forall (fun kv => P kv.2) own -> P (JDecimal repr own)) ->
  (forall items, Forall P items -> P (JArr items)) ->
  (forall entries, Forall (fun kv => P kv.2) entries -> P (JObj entries)) ->
  forall v, P v.
Proof.
  intros Hundef Hnull Hbool Hnum Hstr Hdate Hdec Harr Hobj.
  fix IH 1. intros v.
  destruct v as [| | b | n | s | t | repr own | items | entries].
  - exact Hundef.
  - exact Hnull.
  - apply Hbool.
  - apply Hnum.
  - apply Hstr.
  - apply Hdate.
  - apply Hdec. induction own as [| [k x] own IHown]; constructor; [apply IH | exact IHown].
  - apply Harr. induction items as [| x items IHitems]; constructor; [apply IH | exact IHitems].
  - apply Hobj.
    induction entries as [| [k x] entries IHentries]; constructor; [apply IH | exact IHentries].
Qed.

Lemma cmap_id {A : Type} (f : A -> Completion A) (l : list A) :
  Forall (fun x => f x = Normal x) l -> cmap f l = Normal l.
Proof.
  induction 1 as [| x l Hx _ IH]; simpl; [reflexivity |].
  rewrite Hx, IH. reflexivity.
Qed.

(** A round trip through two walks that undo each other element-wise. *)
Lemma cmap_roundtrip {A B : Type} (f : A -> Completion B) (g : B -> Completion A) (l : list A) :
  Forall (fun x => exists y, f x = Normal y /\ g y = Normal x) l ->
  exists l', cmap f l = Normal l' /\ cmap g l' = Normal l.
Proof.
  induction 1 as [| x l (y & Hf & Hg) _ (l' & Hfl & Hgl)]; simpl.
  - exists []. split; reflexivity.
  - exists (y :: l'). simpl. rewrite Hf, Hfl, Hg, Hgl. split; reflexivity.
Qed.

Lemma transformDates_date_free (v : JsValue) :
  date_free v = true -> transformDates v = Normal v.
Proof.
  induction v as [| | b | n | s | t | repr own _ | items IH | entries IH]
    using JsValue_induction; simpl; intros Hfree; try reflexivity; try discriminate Hfree.
  - rewrite (cmap_id transformDates items); [reflexivity |].
    rewrite forallb_forall in Hfree. rewrite Forall_forall in *.
    intros x Hx. apply IH; [exact Hx |]. apply Hfree, list_elem_of_In, Hx.
  - rewrite (cmap_id _ entries); [reflexivity |].
    rewrite forallb_forall in Hfree. rewrite Forall_forall in *.
    intros [k x] Hx. specialize (IH _ Hx). specialize (Hfree (k, x)).
    simpl in *. rewrite IH; [reflexivity |].
    apply Hfree, list_elem_of_In, Hx.
Qed.

Section RoundTrip.

Context (schema : Schema) (Date_parse : string -> option Z).
Context (PrismaDecimal : option (JsValue -> Completion JsValue)).

Hypothesis Date_parse_iso : parses_iso_strings Date_parse.

Lemma transformDates_shape (v frozen : JsValue) :
  transformDates v = Normal frozen ->
  match v with
  | JArr _ => exists items, frozen = JArr items
  | JObj _ => exists entries, frozen = JObj entries
  | _ => True
  end.
Proof.
  destruct v; simpl; try (intros _; exact I).
  - destruct (cmap _ _); simpl; intros [= <-]; eauto.
  - destruct (cmap _ _); simpl; intros [= <-]; eauto.
Qed.

Lemma roundtrip_property (modelName key : string) (x : JsValue) :
  described_property (described schema) schema modelName key x = true ->
  four_digit_years x = true ->
  (forall relatedModel,
     described schema x relatedModel = true -> four_digit_years x = true ->
     roundtrip schema Date_parse PrismaDecimal x relatedModel) ->
  exists frozen,
    transformDates x = Normal frozen
    /\ restore_entry Date_parse
         (fun value relatedModel =>
            restoreTypesInternal schema Date_parse value relatedModel PrismaDecimal)
         (getDateTimeFields schema modelName) (getDecimalFields schema modelName)
         (getModelFields schema modelName) PrismaDecimal key frozen
       = Normal x.
Proof.
  unfold described_property, restore_entry. intros Hdescribed Hyears IH.
  destruct (bool_decide (key ∈ getDateTimeFields schema modelName)).
  - (* a DateTime field *)
    destruct x as [| | | | | [t |] | | |]; try discriminate Hdescribed;
      try discriminate Hyears.
    + exists JUndefined. split; [reflexivity |]. simpl.
      destruct (bool_decide _), (relation_field _ _); reflexivity.
    + exists JNull. split; [reflexivity |]. simpl.
      destruct (bool_decide _), (relation_field _ _); reflexivity.
    + simpl in Hyears. apply andb_true_iff in Hyears as [Hlo Hhi].
      destruct (ISOString_roundtrip t ltac:(lia)) as [Hmatch Hparse].
      exists (JStr (ISOString_of_time t)). split; [reflexivity |]. cbv beta iota.
      rewrite Hmatch, (Date_parse_iso _ _ Hparse). reflexivity.
  - destruct (bool_decide (key ∈ getDecimalFields schema modelName)).
    + (* a Decimal field *)
      destruct x; try discriminate Hdescribed.
      * exists JUndefined. split; [reflexivity |]. simpl.
        destruct (relation_field _ _); reflexivity.
      * exists JNull. split; [reflexivity |]. simpl.
        destruct (relation_field _ _); reflexivity.
    + destruct (relation_field (getModelFields schema modelName) key) as [field |].
      * (* a relation *)
        destruct (IH (f_type field) Hdescribed Hyears) as (frozen & Hfreeze & Hthaw).
        exists frozen. split; [exact Hfreeze |]. simpl.
        pose proof (transformDates_shape _ _ Hfreeze) as Hshape.
        destruct x; try discriminate Hdescribed;
          try (simpl in Hfreeze; injection Hfreeze as <-; reflexivity).
        -- destruct Hshape as [items' ->]. exact Hthaw.
        -- destruct Hshape as [entries' ->]. exact Hthaw.
      * (* any other field *)
        exists x. split; [apply transformDates_date_free, Hdescribed |]. simpl.
        destruct x; reflexivity.
Qed.

Lemma roundtrip_described (v : JsValue) :
  forall modelName,
    described schema v modelName = true -> four_digit_years v = true -> roundtrip schema Date_parse PrismaDecimal v modelName.
Proof.
  induction v as [| | b | n | s | t | repr own _ | items IH | entries IH]
    using JsValue_induction; intros modelName Hdescribed Hyears;
    try discriminate Hdescribed;
    try (eexists; split; reflexivity).
  - (* arrays *)
    simpl in Hdescribed, Hyears. rewrite forallb_forall in Hdescribed, Hyears.
    destruct (cmap_roundtrip transformDates
                (fun item => restoreTypesInternal schema Date_parse item modelName PrismaDecimal)
                items) as (items' & Hfreeze & Hthaw).
    { rewrite Forall_forall in *. intros x Hx.
      apply (IH x Hx modelName); [apply Hdescribed | apply Hyears]; apply list_elem_of_In, Hx. }
    exists (JArr items'). simpl. rewrite Hfreeze. simpl. rewrite Hthaw. split; reflexivity.
  - (* objects *)
    simpl in Hdescribed, Hyears. rewrite forallb_forall in Hdescribed, Hyears.
    destruct (cmap_roundtrip
                (fun kv : string * JsValue =>
                   cbind (transformDates kv.2) (fun v' => Normal (kv.1, v')))
                (fun kv : string * JsValue =>
                   cbind (restore_entry Date_parse
                            (fun value relatedModel =>
                               restoreTypesInternal schema Date_parse value relatedModel
                                 PrismaDecimal)
                            (getDateTimeFields schema modelName)
                            (getDecimalFields schema modelName)
                            (getModelFields schema modelName) PrismaDecimal kv.1 kv.2)
                         (fun v' => Normal (kv.1, v')))
                entries) as (entries' & Hfreeze & Hthaw).
    { rewrite Forall_forall in *. intros [key x] Hx.
      destruct (roundtrip_property modelName key x) as (frozen & Hf & Ht).
      - apply (Hdescribed (key, x)), list_elem_of_In, Hx.
      - apply (Hyears (key, x)), list_elem_of_In, Hx.
      - apply (IH (key, x) Hx).
      - exists (key, frozen). simpl. rewrite Hf. simpl. rewrite Ht. split; reflexivity. }
    exists (JObj entries'). simpl. rewrite Hfreeze. simpl. rewrite Hthaw. split; reflexivity.
Qed.

End RoundTrip.

(** C2, as amended.  Let every date of [v] be the value of a DateTime
    field of the model that governs its object ([m] at the top and inside
    arrays, the target model under a relation field), DateTime fields hold
    nothing but dates and Decimal fields nothing at all ([described]), and
    let every date be valid with a year in 0..9999.  Then, on a host whose
    [Date] constructor parses ISO strings, freezing [v] succeeds and thawing
    the result under [m] gives back [v], dates with the same time value. *)
Theorem freeze_thaw_roundtrip (schema : Schema) (Date_parse : string -> option Z)
    (RuntimeDecimal : option (JsValue -> Completion JsValue)) (v : JsValue) (m : string) :
  parses_iso_strings Date_parse ->
  described schema v m = true ->
  four_digit_years v = true ->
  cbind (transformDates v)
        (fun frozen => restoreDates schema Date_parse RuntimeDecimal frozen m)
  = Normal v.
Proof.
  intros Hparse Hdescribed Hyears.
  destruct (roundtrip_described schema Date_parse RuntimeDecimal Hparse v m Hdescribed Hyears)
    as (frozen & Hfreeze & Hthaw).
  rewrite Hfreeze. simpl. exact Hthaw.
Qed.

Lemma freeze_thaw_roundtrip_witness :
  cbind (transformDates blog_posts)
        (fun frozen => restoreDates blog_schema Date_parse_utc None frozen "Post")
  = Normal blog_posts.
Proof.
  apply (freeze_thaw_roundtrip blog_schema Date_parse_utc None blog_posts "Post").
  - intros s t H. exact H.
  - vm_compute. reflexivity.
  - vm_compute. reflexivity.
Defined.

(** C2 as stated fails.  A date past the year 9999: [createdAt] is a
    DateTime field of Post and holds a valid date, whose ISO string starts
    with a sign and six digits; [ISO_DATE_REGEX] rejects it and the field
    comes back as a string, whatever the host.  And a date that is no
    property value: thawing follows the fields of the model, so the dates of
    a sequence of dates come back as strings under every model. *)
Lemma freeze_thaw_roundtrip_counterexample :
  (described blog_schema far_future_post "Post" = true
   /\ (forall (Date_parse : string -> option Z)
              (RuntimeDecimal : option (JsValue -> Completion JsValue)),
         cbind (transformDates far_future_post)
               (fun frozen => restoreDates blog_schema Date_parse RuntimeDecimal frozen "Post")
         = Normal (JObj [("id", JStr "p3");
                         ("createdAt", JStr "+010000-01-01T00:00:00.000Z")]))
   /\ JObj [("id", JStr "p3"); ("createdAt", JStr "+010000-01-01T00:00:00.000Z")]
      <> far_future_post)
  /\ ((forall (schema : Schema) (Date_parse : string -> option Z)
              (RuntimeDecimal : option (JsValue -> Completion JsValue)) (m : string),
         cbind (transformDates (JArr [JDate (Some 0)]))
               (fun frozen => restoreDates schema Date_parse RuntimeDecimal frozen m)
         = Normal (JArr [JStr "1970-01-01T00:00:00.000Z"]))
      /\ JArr [JStr "1970-01-01T00:00:00.000Z"] <> JArr [JDate (Some 0)]).
Proof.
  split; [split; [| split] | split].
  - vm_compute. reflexivity.
  - intros Date_parse RuntimeDecimal. vm_compute. reflexivity.
  - discriminate.
  - intros schema Date_parse RuntimeDecimal m. reflexivity.
  - discriminate.
Qed.

(* ====================================================================== *)
(** * Further properties of the helpers and of the two hooks *)
(* ====================================================================== *)

(** ** The schema facade *)

Lemma In_omap_inv {A B : Type} (f : A -> option B) (l : list A) (y : B) :
  In y (omap f l) -> exists x, In x l /\ f x = Some y.
Proof.
  intros H. apply list_elem_of_In, list_elem_of_omap in H as (x & Hx & Hf).
  exists x. split; [apply list_elem_of_In, Hx | exact Hf].
Qed.

Lemma typed_fields_foldl (type : string) (fields : list (string * FieldDefinition))
    (acc : gset string) (k : string) :
  k ∈ foldl (fun (names : gset string) (entry : string * FieldDefinition) =>
               if String.eqb (f_type entry.2) type then names ∪ {[entry.1]} else names)
            acc fields
  <-> k ∈ acc \/ exists field, In (k, field) fields /\ f_type field = type.
Proof.
  revert acc. induction fields as [| [k' field'] fields IH]; intros acc; simpl.
  - split; [auto | intros [H | (field & [] & _)]; exact H].
  - rewrite IH. destruct (String.eqb_spec (f_type field') type) as [Htype | Htype].
    + rewrite elem_of_union, elem_of_singleton. split.
      * intros [[H | ->] | (field & Hin & Hf)]; eauto.
      * intros [H | (field & [[= -> ->] | Hin] & Hf)]; eauto.
    + split.
      * intros [H | (field & Hin & Hf)]; eauto.
      * intros [H | (field & [[= -> ->] | Hin] & Hf)]; eauto. contradiction.
Qed.

(** X1.  [getDateTimeFields] holds exactly the names of the fields whose
    type is the string DateTime, [getDecimalFields] those whose type is
    Decimal; for a model the schema does not have, both are empty and the
    model has no related models. *)
Theorem typed_fields_membership (schema : Schema) (m k : string) :
  (k ∈ getDateTimeFields schema m <->
   exists field, In (k, field) (getModelFields schema m) /\ f_type field = "DateTime")
  /\ (k ∈ getDecimalFields schema m <->
      exists field, In (k, field) (getModelFields schema m) /\ f_type field = "Decimal")
  /\ (schema !! m = None ->
      getDateTimeFields schema m = ∅ /\ getDecimalFields schema m = ∅
      /\ getRelatedModels schema m = []).
Proof.
  split; [| split].
  - unfold getDateTimeFields. rewrite typed_fields_foldl. rewrite elem_of_empty. tauto.
  - unfold getDecimalFields. rewrite typed_fields_foldl. rewrite elem_of_empty. tauto.
  - intros Hnone. unfold getDateTimeFields, getDecimalFields, getRelatedModels, getModelFields.
    rewrite Hnone. repeat split.
Qed.

Lemma includes_In (l : list string) (s : string) : includes l s = true <-> In s l.
Proof.
  unfold includes. rewrite existsb_exists. split.
  - intros (x & Hin & Heq). apply String.eqb_eq in Heq. subst x. exact Hin.
  - intros Hin. exists s. split; [exact Hin | apply String.eqb_refl].
Qed.

Lemma getCustomLife_Some (schema : Schema) (m p : string) :
  getCustomLife schema m = Some p <->
  declared_cache_life schema m = JStr p /\ In p life_profiles.
Proof.
  unfold getCustomLife. fold (declared_cache_life schema m). fold life_profiles.
  destruct (declared_cache_life schema m) as [| | b | n | s | t | repr own | items | entries];
    try (split; [destruct (negb _); discriminate | intros [Hd _]; discriminate Hd]).
  cbv [truthy]. destruct (String.eqb_spec s "") as [-> | Hs]; cbv [negb].
  - split; [discriminate |]. intros [[= <-] Hin]. simpl in Hin.
    repeat destruct Hin as [Hin | Hin]; try discriminate Hin. contradiction.
  - destruct (includes life_profiles s) eqn:Hinc.
    + apply includes_In in Hinc. split; [intros [= <-]; auto | intros [[= <-] _]; reflexivity].
    + split; [discriminate |]. intros [[= <-] Hin]. apply includes_In in Hin. congruence.
Qed.

(** X2.  The seconds a model's reads are cached for are always one of the
    six values of the table.  A declared [@@cache.life] that is one of the
    six profiles wins over the option [defaultCacheLife]; any other
    declared value is ignored, and the option applies, [hours] when it is
    absent. *)
Theorem revalidate_seconds_of_a_model (schema : Schema) (options : NextjsCachePluginOptions)
    (m : string) :
  In (getCacheRevalidateSeconds (getLifeForModel schema options m))
     [1; 60; 3600; 86400; 604800; 31536000]
  /\ (forall p, declared_cache_life schema m = JStr p -> In p life_profiles ->
        getLifeForModel schema options m = p)
  /\ ((forall p, declared_cache_life schema m = JStr p -> ~ In p life_profiles) ->
      getLifeForModel schema options m = default "hours" (defaultCacheLife options)).
Proof.
  split; [| split].
  - unfold getCacheRevalidateSeconds.
    repeat match goal with
           | |- context [if ?b then _ else _] => destruct b
           end; simpl; tauto.
  - intros p Hdeclared Hin. unfold getLifeForModel.
    rewrite (proj2 (getCustomLife_Some schema m p) (conj Hdeclared Hin)). reflexivity.
  - intros Hinvalid. unfold getLifeForModel.
    destruct (getCustomLife schema m) as [p |] eqn:Hlife; [| reflexivity].
    apply getCustomLife_Some in Hlife as [Hdeclared Hin].
    exfalso. exact (Hinvalid p Hdeclared Hin).
Qed.

(** X3.  When [@@cache.tags] declares an array, its string elements are
    the custom tags of the model, in order, and its other elements are
    dropped.  Without a tag generator the tags of the model are then the
    custom tags followed by the entity tag of a non-empty id: the default
    list tag is not among them unless it is declared.  When no string is
    left, the default tags apply. *)
Theorem custom_tags_replace_the_list_tag (schema : Schema) (options : NextjsCachePluginOptions)
    (m : string) (id : option string) (items : list JsValue) :
  customTagGenerator options = None ->
  declared_cache_tags schema m = JArr items ->
  getCustomTags schema m = Some (string_items items)
  /\ (forall tag, In tag (string_items items) <-> In (JStr tag) items)
  /\ getTagsForModel schema options m id
     = if bool_decide (string_items items = [])
       then [String_toLowerCase m +:+ ":list"] ++ entityTagFor m id
       else string_items items ++ entityTagFor m id.
Proof.
  intros Hgen Hdeclared.
  assert (Hcustom : getCustomTags schema m = Some (string_items items)).
  { unfold getCustomTags. fold (declared_cache_tags schema m). rewrite Hdeclared. reflexivity. }
  split; [exact Hcustom |]. split.
  - intros tag. unfold string_items. split.
    + intros Hin. apply In_omap_inv in Hin as (x & Hx & Hs).
      destruct x; try discriminate Hs. injection Hs as ->. exact Hx.
    + intros Hin. apply (In_omap _ _ (JStr tag)); [exact Hin | reflexivity].
  - unfold getTagsForModel, generateCacheTags, entityTagFor. rewrite Hgen, Hcustom.
    case_bool_decide as Hitems.
    + rewrite Hitems. destruct id as [i |]; simpl; [| reflexivity].
      destruct (String.eqb i ""); reflexivity.
    + destruct (string_items items) as [| t ts]; [contradiction |].
      destruct id as [i |]; simpl; [| rewrite app_nil_r; reflexivity].
      destruct (String.eqb i ""); simpl; rewrite ?app_nil_r; reflexivity.
Qed.

Lemma custom_tags_replace_the_list_tag_witness :
  getCustomTags schema_with_custom_tags "Post" = Some ["posts"; "content"]
  /\ (forall tag, In tag ["posts"; "content"]
                  <-> In (JStr tag) [JStr "posts"; JNum 7; JStr "content"])
  /\ getTagsForModel schema_with_custom_tags no_options "Post" (Some "7")
     = ["posts"; "content"; "post:7"].
Proof.
  apply (custom_tags_replace_the_list_tag schema_with_custom_tags no_options "Post" (Some "7")
           [JStr "posts"; JNum 7; JStr "content"]).
  - reflexivity.
  - vm_compute. reflexivity.
Defined.

Lemma getRelatedModels_eq (schema : Schema) (m : string) :
  getRelatedModels schema m = omap relationTarget (getModelFields schema m).
Proof.
  unfold getRelatedModels.
  rewrite (foldl_push _ relationTarget); [reflexivity |].
  intros acc x. unfold relationTarget. destruct (f_relation x.2); simpl;
    rewrite ?app_nil_r; reflexivity.
Qed.

Lemma assoc_In {A : Type} (k : string) (l : list (string * A)) (a : A) :
  assoc k l = Some a -> In (k, a) l.
Proof.
  induction l as [| [k' a'] l IH]; simpl; [discriminate |].
  destruct (String.eqb_spec k k') as [-> | _].
  - intros [= ->]. left. reflexivity.
  - intros H. right. apply IH, H.
Qed.

Lemma relation_field_related (schema : Schema) (m fieldName : string) (field : FieldDefinition) :
  relation_field (getModelFields schema m) fieldName = Some field ->
  In (f_type field) (getRelatedModels schema m).
Proof.
  unfold relation_field. intros H.
  destruct (assoc fieldName (getModelFields schema m)) as [field' |] eqn:Hassoc;
    [| discriminate H].
  destruct (is_Some_dec (f_relation field')) as [Hrel | Hrel]; [| discriminate H].
  injection H as ->.
  rewrite getRelatedModels_eq.
  apply (In_omap relationTarget _ (fieldName, field)); [apply assoc_In, Hassoc |].
  unfold relationTarget. simpl. destruct Hrel as [r ->]. reflexivity.
Qed.

Lemma extractIncludedRelations_not_object (schema : Schema) (queryArgs : JsValue) (m : string) :
  is_object queryArgs = false -> extractIncludedRelations schema queryArgs m = [].
Proof.
  unfold is_object, extractIncludedRelations. intros H.
  destruct (truthy queryArgs), (typeof_object queryArgs); try discriminate H; reflexivity.
Qed.

(** Every extracted model is the target of a relation field that the query names. *)
Lemma extracted_relation_named (schema : Schema) (queryArgs : JsValue) (m r : string) :
  In r (extractIncludedRelations schema queryArgs m) ->
  exists fieldName value field,
    relation_field (getModelFields schema m) fieldName = Some field
    /\ f_type field = r
    /\ ((In (fieldName, value) (Object_entries (get queryArgs "include")) /\ truthy value = true)
        \/ (In (fieldName, value) (Object_entries (get queryArgs "select"))
            /\ is_object value = true)).
Proof.
  destruct (is_object queryArgs) eqn:Hobj.
  - rewrite (extractIncludedRelations_eq _ _ _ Hobj). intros Hin.
    apply in_app_or in Hin as [Hin | Hin].
    + destruct (is_object (get queryArgs "include")); [| contradiction].
      apply In_omap_inv in Hin as ([fieldName value] & Hentry & Hby).
      unfold includedBy in Hby. simpl in Hby.
      destruct (relation_field _ fieldName) as [field |] eqn:Hfield; [| discriminate Hby].
      destruct (truthy value) eqn:Hvalue; [| discriminate Hby].
      injection Hby as <-. exists fieldName, value, field. auto.
    + destruct (is_object (get queryArgs "select")); [| contradiction].
      apply In_omap_inv in Hin as ([fieldName value] & Hentry & Hby).
      unfold selectedBy in Hby. simpl in Hby.
      destruct (relation_field _ fieldName) as [field |] eqn:Hfield; [| discriminate Hby].
      fold (is_object value) in Hby.
      destruct (is_object value) eqn:Hvalue; [| discriminate Hby].
      injection Hby as <-. exists fieldName, value, field. auto.
  - rewrite (extractIncludedRelations_not_object _ _ _ Hobj). contradiction.
Qed.

Lemma extracted_is_related (schema : Schema) (queryArgs : JsValue) (m r : string) :
  In r (extractIncludedRelations schema queryArgs m) -> In r (getRelatedModels schema m).
Proof.
  intros Hin. apply extracted_relation_named in Hin as (k & v & field & Hfield & <- & _).
  eapply relation_field_related, Hfield.
Qed.

Lemma widening_is_related (schema : Schema) (options : NextjsCachePluginOptions)
    (m : string) (queryArgs : JsValue) (tag : string) :
  In tag (wideningTags schema options m queryArgs) -> In tag (relatedListTags schema options m).
Proof.
  intros Hin. apply In_wideningTags in Hin as (r & -> & Hr & Hex).
  unfold relatedListTags. apply in_map, filter_In. split.
  - eapply extracted_is_related, Hr.
  - rewrite Hex. reflexivity.
Qed.

(** X4.  Every model [extractIncludedRelations] returns is the target of a
    relation field of the model that the query names: in [include] with a
    truthy value, or in [select] with an object value.  So the extracted
    models are among the related models of [getRelatedModels], nothing is
    extracted from arguments that are no object or for a model without
    fields, and every list tag that widens a read of a model is among the
    related list tags that a mutation of that model invalidates. *)
Theorem extractIncludedRelations_sound (schema : Schema) (options : NextjsCachePluginOptions)
    (queryArgs : JsValue) (m : string) :
  (forall r, In r (extractIncludedRelations schema queryArgs m) ->
     In r (getRelatedModels schema m)
     /\ exists fieldName value field,
          In (fieldName, field) (getModelFields schema m)
          /\ is_Some (f_relation field) /\ f_type field = r
          /\ ((In (fieldName, value) (Object_entries (get queryArgs "include"))
               /\ truthy value = true)
              \/ (In (fieldName, value) (Object_entries (get queryArgs "select"))
                  /\ truthy value = true /\ typeof_object value = true)))
  /\ (truthy queryArgs = false \/ typeof_object queryArgs = false ->
      extractIncludedRelations schema queryArgs m = [])
  /\ (getModelFields schema m = [] -> extractIncludedRelations schema queryArgs m = [])
  /\ (forall tag, In tag (wideningTags schema options m queryArgs) ->
        In tag (relatedListTags schema options m)).
Proof.
  split; [| split; [| split]].
  - intros r Hin. split; [eapply extracted_is_related, Hin |].
    apply extracted_relation_named in Hin as (k & v & field & Hfield & Htype & Hnamed).
    exists k, v, field.
    unfold relation_field in Hfield.
    destruct (assoc k (getModelFields schema m)) as [field' |] eqn:Hassoc;
      [| discriminate Hfield].
    destruct (is_Some_dec (f_relation field')) as [Hrel | Hrel]; [| discriminate Hfield].
    injection Hfield as ->.
    split; [apply assoc_In, Hassoc |]. split; [exact Hrel |]. split; [exact Htype |].
    destruct Hnamed as [H | [Hentry Hobj]]; [left; exact H | right].
    unfold is_object in Hobj. apply andb_true_iff in Hobj as [Ht Ho]. auto.
  - intros Hno. apply extractIncludedRelations_not_object. unfold is_object.
    destruct Hno as [-> | ->]; [reflexivity | apply andb_false_r].
  - intros Hnone.
    destruct (extractIncludedRelations schema queryArgs m) as [| r rest] eqn:Hextracted;
      [reflexivity |].
    assert (Hin : In r (extractIncludedRelations schema queryArgs m))
      by (rewrite Hextracted; left; reflexivity).
    apply extracted_is_related in Hin. rewrite getRelatedModels_eq, Hnone in Hin.
    contradiction.
  - intros tag. apply widening_is_related.
Qed.

(** ** Cache keys, callers and property order *)

Lemma append_cons (c : ascii) (s1 s2 : string) : String c s1 +:+ s2 = String c (s1 +:+ s2).
Proof. reflexivity. Qed.

Lemma length_append (s1 s2 : string) :
  String.length (s1 +:+ s2) = (String.length s1 + String.length s2)%nat.
Proof.
  induction s1 as [| c s1 IH]; [reflexivity |].
  rewrite append_cons. simpl. rewrite IH. reflexivity.
Qed.

Lemma append_inv_tail (s1 s2 t : string) : s1 +:+ t = s2 +:+ t -> s1 = s2.
Proof.
  revert s2. induction s1 as [| c s1 IH]; intros s2 H.
  - destruct s2 as [| c2 s2]; [reflexivity |].
    apply (f_equal String.length) in H. rewrite !length_append in H. simpl in H. lia.
  - destruct s2 as [| c2 s2].
    + apply (f_equal String.length) in H. rewrite !length_append in H. simpl in H. lia.
    + rewrite !append_cons in H. injection H as -> H. f_equal. apply IH, H.
Qed.

(** The key starts with the base key, and what follows does not depend on the caller. *)
Lemma generateCacheKey_head (m op : string) (q : JsValue) (userId : option string) :
  generateCacheKey m op q userId
  = ((match userId with
      | Some u => if truthy (JStr u) then "user:" +:+ u +:+ ":" else ""
      | None => ""
      end) +:+ String_toLowerCase m +:+ ":" +:+ op)
    :: tl (generateCacheKey m op q None).
Proof.
  unfold generateCacheKey.
  destruct (negb (truthy q) || negb (typeof_object q)); [reflexivity |].
  destruct (JSON_stringify q); reflexivity.
Qed.

(** X5.  For a model, an operation and arguments, the key generated for a
    caller with a non-empty id is generated for no other caller: not for
    another id, not for a caller without id.  The empty id counts as no
    id. *)
Theorem cache_keys_separate_callers (m op : string) (q : JsValue) (u : string)
    (other : option string) :
  u <> "" ->
  (generateCacheKey m op q (Some u) = generateCacheKey m op q other <-> other = Some u)
  /\ generateCacheKey m op q (Some "") = generateCacheKey m op q None.
Proof.
  intros Hu. split; [| reflexivity].
  split; [| intros ->; reflexivity].
  rewrite (generateCacheKey_head m op q (Some u)), (generateCacheKey_head m op q other).
  apply truthy_JStr in Hu. rewrite Hu.
  intros [= Hhead]. apply append_inv_tail in Hhead.
  destruct other as [u' |].
  - change (negb (String.eqb u' "")) with (truthy (JStr u')) in Hhead.
    destruct (truthy (JStr u')); [| rewrite append_cons in Hhead; discriminate Hhead].
    apply (String.app_inj "user:") in Hhead. apply append_inv_tail in Hhead.
    subst u'. reflexivity.
  - rewrite append_cons in Hhead. discriminate Hhead.
Qed.

Lemma cache_keys_separate_callers_witness :
  (generateCacheKey "Post" "findMany" (JObj []) (Some "user-1")
   = generateCacheKey "Post" "findMany" (JObj []) (Some "user-2")
   <-> Some "user-2" = Some "user-1")
  /\ generateCacheKey "Post" "findMany" (JObj []) (Some "")
     = generateCacheKey "Post" "findMany" (JObj []) None.
Proof.
  apply (cache_keys_separate_callers "Post" "findMany" (JObj []) "user-1" (Some "user-2")).
  discriminate.
Defined.

Lemma append_assoc (s1 s2 s3 : string) : (s1 +:+ s2) +:+ s3 = s1 +:+ (s2 +:+ s3).
Proof.
  induction s1 as [| c s1 IH]; [reflexivity |].
  rewrite !append_cons, IH. reflexivity.
Qed.

Lemma json_unquote_escape (c : ascii) (rest : string) :
  json_unquote_body (json_escape c +:+ rest) = prepend c (json_unquote_body rest).
Proof.
  destruct c as [[] [] [] [] [] [] [] []]; reflexivity.
Qed.

Lemma json_unquote_body_escape_string (s rest : string) :
  json_unquote_body (json_escape_string s +:+ String quote_char rest) = Some (s, rest).
Proof.
  induction s as [| c s IH].
  - reflexivity.
  - cbn [json_escape_string]. rewrite append_assoc, json_unquote_escape, IH. reflexivity.
Qed.

(** Unquoting undoes quoting, whatever follows the literal. *)
Lemma json_unquote_quote (s rest : string) :
  json_unquote (json_quote s +:+ rest) = Some (s, rest).
Proof.
  unfold json_quote. rewrite append_cons. cbn [json_unquote].
  change (Ascii.eqb quote_char quote_char) with true. cbv iota.
  rewrite append_assoc. apply json_unquote_body_escape_string.
Qed.

(** The JSON text of an object whose first property has a JSON text starts
    with the literal of its key. *)
Lemma JSON_stringify_first_key (k : string) (v : JsValue) (entries : list (string * JsValue)) :
  JSON_stringify v <> None ->
  exists tail,
    JSON_stringify (JObj ((k, v) :: entries)) = Some (String "{" (json_quote k +:+ tail)).
Proof.
  intros Hv. destruct (JSON_stringify v) as [s |] eqn:Hs; [| contradiction].
  cbn [JSON_stringify]. csimpl. rewrite Hs. csimpl.
  destruct (omap _ entries) as [| x others].
  - exists (":" +:+ s +:+ "}"). cbn [join].
    rewrite append_cons, !append_assoc. reflexivity.
  - eexists. cbn [join]. rewrite append_cons, !append_assoc. reflexivity.
Qed.

(** X6.  The JSON text of the arguments enters the key as
    [JSON.stringify] writes it, in property order: two argument objects
    that list the same two leading properties in the opposite order get
    different keys.  Keys are not sorted.  (JavaScript keeps insertion
    order for keys that are not array indices.) *)
Theorem cache_key_depends_on_property_order (m op : string) (userId : option string)
    (k1 k2 : string) (v1 v2 : JsValue) (rest : list (string * JsValue)) :
  k1 <> k2 ->
  JSON_stringify v1 <> None ->
  JSON_stringify v2 <> None ->
  generateCacheKey m op (JObj ((k1, v1) :: (k2, v2) :: rest)) userId
  <> generateCacheKey m op (JObj ((k2, v2) :: (k1, v1) :: rest)) userId.
Proof.
  intros Hkeys Hv1 Hv2 Hsame.
  destruct (JSON_stringify_first_key k1 v1 ((k2, v2) :: rest) Hv1) as [tail1 Htext1].
  destruct (JSON_stringify_first_key k2 v2 ((k1, v1) :: rest) Hv2) as [tail2 Htext2].
  unfold generateCacheKey in Hsame. cbn [truthy typeof_object negb orb] in Hsame.
  rewrite Htext1, Htext2 in Hsame.
  assert (Htexts : String "{" (json_quote k1 +:+ tail1) = String "{" (json_quote k2 +:+ tail2))
    by congruence.
  apply (f_equal (fun text => match text with
                              | String _ literal => json_unquote literal
                              | EmptyString => None
                              end)) in Htexts.
  cbv beta iota in Htexts. rewrite !json_unquote_quote in Htexts.
  injection Htexts as Hk _. contradiction.
Qed.

Lemma cache_key_depends_on_property_order_witness :
  generateCacheKey "Post" "findMany"
    (JObj [("where", JObj [("published", JBool true)]); ("take", JNum 10)]) None
  <> generateCacheKey "Post" "findMany"
       (JObj [("take", JNum 10); ("where", JObj [("published", JBool true)])]) None.
Proof.
  apply (cache_key_depends_on_property_order "Post" "findMany" None "where" "take"
           (JObj [("published", JBool true)]) (JNum 10) []);
    discriminate.
Defined.

(** ** Freezing and thawing *)

Lemma cmap_Normal {A B : Type} (f : A -> Completion B) (l : list A) (l' : list B) :
  cmap f l = Normal l' -> Forall2 (fun x y => f x = Normal y) l l'.
Proof.
  revert l'. induction l as [| x l IH]; simpl; intros l'.
  - intros [= <-]. constructor.
  - destruct (f x) as [y |] eqn:Hx; simpl; [| discriminate].
    destruct (cmap f l) as [ys |]; simpl; [| discriminate].
    intros [= <-]. constructor; [exact Hx | apply IH; reflexivity].
Qed.


(** The outcome of a walk whose callback fails exactly on the elements
    that fail a test, always with the same error. *)
Lemma cmap_outcome {A B : Type} (f : A -> Completion B) (p : A -> bool) (e0 : JsError)
    (l : list A) :
  Forall (fun x => match f x with
                   | Normal _ => p x = true
                   | Throw e => p x = false /\ e = e0
                   end) l ->
  match cmap f l with
  | Normal _ => forallb p l = true
  | Throw e => forallb p l = false /\ e = e0
  end.
Proof.
  induction 1 as [| x l Hx _ IH]; simpl; [reflexivity |].
  destruct (f x) as [y |]; simpl.
  - rewrite Hx. destruct (cmap f l); simpl; exact IH.
  - destruct Hx as [-> ->]. auto.
Qed.

Lemma transformDates_frozen (v w : JsValue) :
  transformDates v = Normal w -> date_free w = true.
Proof.
  revert w.
  induction v as [| | b | n | s | t | repr own _ | items IH | entries IH]
    using JsValue_induction; simpl; intros w Hw;
    try (injection Hw as <-; reflexivity).
  - destruct t; simpl in Hw; [injection Hw as <-; reflexivity | discriminate Hw].
  - destruct (cmap transformDates items) as [items' |] eqn:Hitems; simpl in Hw;
      [| discriminate Hw].
    injection Hw as <-. simpl. apply forallb_forall.
    apply cmap_Normal in Hitems.
    induction Hitems as [| x y items items' Hxy _ IHitems]; [intros ? [] |].
    apply Forall_cons in IH as [Hx Hrest].
    intros z [<- | Hz]; [apply (Hx _ Hxy) | apply (IHitems Hrest z Hz)].
  - destruct (cmap _ entries) as [entries' |] eqn:Hentries; simpl in Hw; [| discriminate Hw].
    injection Hw as <-. simpl. apply forallb_forall.
    apply cmap_Normal in Hentries.
    induction Hentries as [| x y entries entries' Hxy _ IHentries]; [intros ? [] |].
    apply Forall_cons in IH as [Hx Hrest].
    intros z [<- | Hz]; [| apply (IHentries Hrest z Hz)].
    destruct (transformDates x.2) as [x' |] eqn:Hx'; simpl in Hxy; [| discriminate Hxy].
    injection Hxy as <-. simpl. apply (Hx _ eq_refl).
Qed.

(** X7.  What [transformDates] returns holds no [Date] and no decimal
    object any more, and freezing it again changes nothing. *)
Theorem transformDates_freezes (v w : JsValue) :
  transformDates v = Normal w ->
  date_free w = true /\ transformDates w = Normal w.
Proof.
  intros Hw. pose proof (transformDates_frozen v w Hw) as Hfree.
  split; [exact Hfree | apply transformDates_date_free, Hfree].
Qed.

Lemma transformDates_freezes_witness :
  date_free (JObj [("createdAt", JStr "2024-01-15T10:30:00.000Z"); ("price", JStr "12.50");
                   ("tags", JArr [JStr "a"; JNull])]) = true
  /\ transformDates (JObj [("createdAt", JStr "2024-01-15T10:30:00.000Z");
                           ("price", JStr "12.50"); ("tags", JArr [JStr "a"; JNull])])
     = Normal (JObj [("createdAt", JStr "2024-01-15T10:30:00.000Z"); ("price", JStr "12.50");
                     ("tags", JArr [JStr "a"; JNull])]).
Proof.
  apply (transformDates_freezes
           (JObj [("createdAt", JDate (Some 1705314600000));
                  ("price", JDecimal "12.50" [("d", JArr [JNum 12; JNum 5000000])]);
                  ("tags", JArr [JStr "a"; JNull])])).
  reflexivity.
Defined.

Lemma transformDates_fails_on_invalid_dates (v : JsValue) :
  match transformDates v with
  | Normal _ => valid_dates v = true
  | Throw e => valid_dates v = false /\ e = RangeError "Invalid time value"
  end.
Proof.
  induction v as [| | b | n | s | t | repr own _ | items IH | entries IH]
    using JsValue_induction; simpl; try reflexivity.
  - destruct t; simpl; auto.
  - pose proof (cmap_outcome transformDates valid_dates _ items IH) as Hwalk.
    destruct (cmap transformDates items); simpl; exact Hwalk.
  - pose proof (cmap_outcome
                  (fun kv : string * JsValue =>
                     cbind (transformDates kv.2) (fun v' => Normal (kv.1, v')))
                  (fun kv => valid_dates kv.2) (RangeError "Invalid time value") entries)
      as Hwalk.
    destruct (cmap _ entries); simpl; apply Hwalk;
      (eapply Forall_impl; [exact IH |]); intros [k x] Hx; simpl in *;
      destruct (transformDates x); simpl; exact Hx.
Qed.

(** X8.  [transformDates] fails exactly on the values that hold an
    Invalid Date (outside the properties of a decimal), and then with the
    RangeError of [toISOString]. *)
Theorem transformDates_fails_on_invalid_dates_only (v : JsValue) :
  (valid_dates v = true -> exists frozen, transformDates v = Normal frozen)
  /\ (valid_dates v = false -> transformDates v = Throw (RangeError "Invalid time value")).
Proof.
  pose proof (transformDates_fails_on_invalid_dates v) as H.
  destruct (transformDates v) as [frozen | e].
  - rewrite H. split; [eauto | discriminate].
  - destruct H as [-> ->]. split; [discriminate | reflexivity].
Qed.




Lemma typed_field_absent (schema : Schema) (m type key : string) :
  Forall (fun entry : string * FieldDefinition => f_type entry.2 <> type)
         (getModelFields schema m) ->
  key ∉ foldl (fun (names : gset string) (entry : string * FieldDefinition) =>
                 if String.eqb (f_type entry.2) type then names ∪ {[entry.1]} else names)
              ∅ (getModelFields schema m).
Proof.
  intros Hplain Hkey. apply typed_fields_foldl in Hkey as [Hkey | (field & Hin & Htype)].
  - apply elem_of_empty in Hkey. exact Hkey.
  - rewrite Forall_forall in Hplain.
    apply (Hplain (key, field) (proj2 (list_elem_of_In _ _) Hin)). exact Htype.
Qed.

Lemma restore_entry_plain (schema : Schema) (Date_parse : string -> option Z)
    (restore : JsValue -> string -> Completion JsValue)
    (PrismaDecimal : option (JsValue -> Completion JsValue))
    (m key : string) (value : JsValue) :
  Forall plain_field (getModelFields schema m) ->
  restore_entry Date_parse restore (getDateTimeFields schema m) (getDecimalFields schema m)
    (getModelFields schema m) PrismaDecimal key value
  = Normal value.
Proof.
  intros Hplain. unfold restore_entry.
  rewrite (bool_decide_eq_false_2 (key ∈ getDateTimeFields schema m)).
  2: { apply typed_field_absent. eapply Forall_impl; [exact Hplain |]. intros entry H. apply H. }
  rewrite (bool_decide_eq_false_2 (key ∈ getDecimalFields schema m)).
  2: { apply typed_field_absent. eapply Forall_impl; [exact Hplain |]. intros entry H. apply H. }
  simpl. unfold relation_field.
  destruct (assoc key (getModelFields schema m)) as [field |] eqn:Hassoc; [| reflexivity].
  apply assoc_In in Hassoc. rewrite Forall_forall in Hplain.
  destruct (Hplain (key, field) (proj2 (list_elem_of_In _ _) Hassoc)) as (_ & _ & Hrel).
  simpl in Hrel. rewrite Hrel. destruct (is_Some_dec None) as [[? [=]] |]. reflexivity.
Qed.

(** X10.  Under a model without DateTime, Decimal and relation fields (a
    model the schema does not have is one), [restoreDates] returns a value
    without dates and decimals as it is: ISO strings stay strings. *)
Theorem restoreDates_plain_model (schema : Schema) (Date_parse : string -> option Z)
    (RuntimeDecimal : option (JsValue -> Completion JsValue)) (v : JsValue) (m : string) :
  Forall plain_field (getModelFields schema m) ->
  date_free v = true ->
  restoreDates schema Date_parse RuntimeDecimal v m = Normal v.
Proof.
  intros Hplain. unfold restoreDates.
  induction v as [| | b | n | s | t | repr own _ | items IH | entries _]
    using JsValue_induction; simpl; intros Hfree; try reflexivity; try discriminate Hfree.
  - rewrite (cmap_id _ items); [reflexivity |].
    rewrite forallb_forall in Hfree. rewrite Forall_forall in *.
    intros x Hx. apply IH; [exact Hx |]. apply Hfree, list_elem_of_In, Hx.
  - rewrite (cmap_id _ entries); [reflexivity |].
    apply Forall_forall. intros [k x] _. simpl.
    rewrite (restore_entry_plain schema Date_parse _ RuntimeDecimal m k x Hplain). reflexivity.
Qed.

Lemma restoreDates_plain_model_witness :
  restoreDates test_schema Date_parse_utc (Some test_Decimal)
    (JArr [JObj [("id", JStr "1"); ("createdAt", JStr "2024-01-15T10:30:00.000Z");
                 ("price", JStr "12.50")]])
    "Verification"
  = Normal (JArr [JObj [("id", JStr "1"); ("createdAt", JStr "2024-01-15T10:30:00.000Z");
                        ("price", JStr "12.50")]]).
Proof.
  apply (restoreDates_plain_model test_schema Date_parse_utc (Some test_Decimal)).
  - vm_compute. constructor.
  - reflexivity.
Defined.

(** The ISO string of a time value matches [ISO_DATE_REGEX] exactly when
    its year has four digits. *)
Lemma ISOString_matches (t : Z) :
  RegExp_test ISO_DATE_REGEX (ISOString_of_time t) = four_digit_year t.
Proof.
  unfold four_digit_year.
  destruct ((0 <=? YearFromTime t) && (YearFromTime t <=? 9999)) eqn:Hyear.
  - apply andb_true_iff in Hyear as [Hlo Hhi].
    apply (ISOString_roundtrip t). lia.
  - unfold YearFromTime in Hyear. unfold ISOString_of_time.
    destruct (civil_from_days (Day t)) as [[y m] d]. simpl in Hyear.
    unfold year_string. rewrite Hyear.
    destruct (y <? 0); reflexivity.
Qed.

(** X11.  The ISO string of a valid date matches [ISO_DATE_REGEX] exactly
    when its UTC year is in 0..9999.  So a valid date in a DateTime field,
    frozen and thawed on a host that parses ISO strings, comes back as the
    same date when its year is in that range, and as its ISO string
    otherwise. *)
Theorem frozen_date_thaws_iff_four_digit_year (schema : Schema)
    (Date_parse : string -> option Z) (RuntimeDecimal : option (JsValue -> Completion JsValue))
    (m key : string) (t : Z) :
  key ∈ getDateTimeFields schema m ->
  key ∉ getDecimalFields schema m ->
  parses_iso_strings Date_parse ->
  RegExp_test ISO_DATE_REGEX (ISOString_of_time t) = four_digit_year t
  /\ cbind (transformDates (JObj [(key, JDate (Some t))]))
           (fun frozen => restoreDates schema Date_parse RuntimeDecimal frozen m)
     = Normal (JObj [(key, if four_digit_year t then JDate (Some t)
                           else JStr (ISOString_of_time t))]).
Proof.
  intros Hdate Hdecimal Hparse. split; [apply ISOString_matches |].
  unfold restoreDates. simpl. unfold restore_entry.
  rewrite (bool_decide_eq_true_2 _ Hdate), (bool_decide_eq_false_2 _ Hdecimal).
  rewrite ISOString_matches. simpl.
  destruct (four_digit_year t) eqn:Hyear.
  - unfold four_digit_year in Hyear. apply andb_true_iff in Hyear as [Hlo Hhi].
    destruct (ISOString_roundtrip t ltac:(lia)) as [_ Hback].
    rewrite (Hparse _ _ Hback). reflexivity.
  - destruct (relation_field _ _); reflexivity.
Qed.

Lemma frozen_date_thaws_iff_four_digit_year_witness :
  RegExp_test ISO_DATE_REGEX (ISOString_of_time (-62198755200000)) = false
  /\ cbind (transformDates (JObj [("createdAt", JDate (Some (-62198755200000)))]))
           (fun frozen => restoreDates blog_schema Date_parse_utc None frozen "Post")
     = Normal (JObj [("createdAt", JStr "-000001-01-01T00:00:00.000Z")]).
Proof.
  apply (frozen_date_thaws_iff_four_digit_year blog_schema Date_parse_utc None "Post" "createdAt").
  - vm_compute. reflexivity.
  - vm_compute. intros H. discriminate H.
  - intros s t H. exact H.
Defined.

(** X12.  A decimal in a Decimal field is frozen to its string; thawing
    hands that string, or a number found there, to the [Decimal]
    constructor of the Prisma runtime and passes on what it returns or
    throws.  Without the runtime the field stays a string or a number, and
    [null] stays [null] either way. *)
Theorem decimal_field_thaws_through_the_runtime (schema : Schema)
    (Date_parse : string -> option Z) (RuntimeDecimal : option (JsValue -> Completion JsValue))
    (m key repr : string) (own : list (string * JsValue)) (n : Z) :
  key ∈ getDecimalFields schema m ->
  key ∉ getDateTimeFields schema m ->
  let thawed (value : JsValue) :=
    match RuntimeDecimal with
    | Some construct => cbind (construct value) (fun decimal => Normal (JObj [(key, decimal)]))
    | None => Normal (JObj [(key, value)])
    end in
  cbind (transformDates (JObj [(key, JDecimal repr own)]))
        (fun frozen => restoreDates schema Date_parse RuntimeDecimal frozen m)
  = thawed (JStr repr)
  /\ restoreDates schema Date_parse RuntimeDecimal (JObj [(key, JNum n)]) m = thawed (JNum n)
  /\ restoreDates schema Date_parse RuntimeDecimal (JObj [(key, JNull)]) m
     = Normal (JObj [(key, JNull)]).
Proof.
  intros Hdecimal Hdate thawed. subst thawed.
  unfold restoreDates. simpl. unfold restore_entry.
  rewrite (bool_decide_eq_true_2 _ Hdecimal), (bool_decide_eq_false_2 _ Hdate). simpl.
  split; [| split].
  - destruct RuntimeDecimal as [construct |]; simpl; [| reflexivity].
    destruct (construct (JStr repr)); reflexivity.
  - destruct RuntimeDecimal as [construct |]; simpl; [| reflexivity].
    destruct (construct (JNum n)); reflexivity.
  - destruct (relation_field _ _); reflexivity.
Qed.

Lemma decimal_field_thaws_through_the_runtime_witness :
  cbind (transformDates (JObj [("price", JDecimal "12.50" [("d", JArr [JNum 12; JNum 5000000])])]))
        (fun frozen => restoreDates blog_schema Date_parse_utc (Some test_Decimal) frozen "Post")
  = cbind (test_Decimal (JStr "12.50")) (fun decimal => Normal (JObj [("price", decimal)]))
  /\ restoreDates blog_schema Date_parse_utc (Some test_Decimal) (JObj [("price", JNum 3)]) "Post"
     = cbind (test_Decimal (JNum 3)) (fun decimal => Normal (JObj [("price", decimal)]))
  /\ restoreDates blog_schema Date_parse_utc (Some test_Decimal) (JObj [("price", JNull)]) "Post"
     = Normal (JObj [("price", JNull)]).
Proof.
  apply (decimal_field_thaws_through_the_runtime blog_schema Date_parse_utc (Some test_Decimal)
           "Post" "price" "12.50" [("d", JArr [JNum 12; JNum 5000000])] 3).
  - vm_compute. reflexivity.
  - vm_compute. intros H. discriminate H.
Defined.

(** ** Queries *)

Section Reads.

Context {E : Type} (schema : Schema) (Date_parse : string -> option Z).
Context (RuntimeDecimal : option (JsValue -> Completion JsValue)).
Context (options : NextjsCachePluginOptions) (next : NextCache) (ctx : QueryContext E).

Hypothesis not_excluded : isExcludedModel schema options (model ctx) = false.
Hypothesis is_read : isReadOperation (operation ctx) = true.


Hypothesis available : cache_available next = true.

Lemma onQuery_hit (w : World E) (entry : CacheEntry) :
  lookup_entry (generateCacheKey (model ctx) (operation ctx) (args ctx)
                  (client_auth ctx ≫= auth_id)) (store w) = Some entry ->
  onQuery schema Date_parse RuntimeDecimal options next ctx w
  = match restoreDates schema Date_parse RuntimeDecimal (entry_value entry) (model ctx) with
    | Normal restored => (Normal restored, record_call (cacheCall schema options ctx) w)
    | Throw _ =>
        directQuery schema Date_parse RuntimeDecimal ctx
          (record_call (cacheCall schema options ctx) w)
    end.
Proof.
  intros Hhit. unfold cache_available in available.
  apply andb_true_iff in available as [Himport Hruns].
  unfold onQuery. rewrite not_excluded, is_read.
  unfold try_catch at 1. unfold abind at 1. unfold import_next_cache.
  rewrite Himport. unfold ret at 1. unfold abind at 1. unfold unstable_cache.
  rewrite Hruns. simpl. rewrite Hhit. unfold lift.
  destruct (restoreDates _ _ _ (entry_value entry) (model ctx)); reflexivity.
Qed.

Lemma onQuery_miss (w : World E) :
  lookup_entry (generateCacheKey (model ctx) (operation ctx) (args ctx)
                  (client_auth ctx ≫= auth_id)) (store w) = None ->
  let ran := proceed ctx (args ctx) (executor w) in
  let w1 := {| executor := ran.2; store := store w;
               calls := (calls w ++ [cacheCall schema options ctx])
                        ++ [Call_proceed (args ctx)] |} in
  onQuery schema Date_parse RuntimeDecimal options next ctx w
  = match cbind ran.1 transformDates with
    | Normal frozen =>
        let w2 := {| executor := ran.2;
                     store := cacheEntry schema options ctx frozen :: store w;
                     calls := calls w1 |} in
        match restoreDates schema Date_parse RuntimeDecimal frozen (model ctx) with
        | Normal restored => (Normal restored, w2)
        | Throw _ => directQuery schema Date_parse RuntimeDecimal ctx w2
        end
    | Throw _ => directQuery schema Date_parse RuntimeDecimal ctx w1
    end.
Proof.
  intros Hmiss ran w1. subst w1 ran. unfold cache_available in available.
  apply andb_true_iff in available as [Himport Hruns].
  unfold onQuery. rewrite not_excluded, is_read.
  unfold try_catch at 1. unfold abind at 1. unfold import_next_cache.
  rewrite Himport. unfold ret at 1. unfold abind at 1. unfold unstable_cache.
  rewrite Hruns. simpl. rewrite Hmiss.
  unfold abind at 1. unfold call_executor at 1. simpl.
  destruct (proceed ctx (args ctx) (executor w)) as [[result | e] e1]; simpl; [| reflexivity].
  unfold lift at 1.
  destruct (transformDates result) as [frozen | e]; simpl; [| reflexivity].
  unfold lift.
  destruct (restoreDates _ _ _ frozen (model ctx)); reflexivity.
Qed.

End Reads.

(** The direct query in terms of its outcome. *)
Lemma directQuery_outcome {E : Type} (schema : Schema) (Date_parse : string -> option Z)
    (RuntimeDecimal : option (JsValue -> Completion JsValue)) (ctx : QueryContext E)
    (w : World E) :
  let ran := proceed ctx (args ctx) (executor w) in
  directQuery schema Date_parse RuntimeDecimal ctx w
  = (cbind ran.1 (fun result =>
       cbind (transformDates result) (fun transformed =>
         restoreDates schema Date_parse RuntimeDecimal transformed (model ctx))),
     {| executor := ran.2; store := store w; calls := calls w ++ [Call_proceed (args ctx)] |}).
Proof.
  intros ran. subst ran. unfold directQuery, abind, call_executor, lift.
  destruct (proceed ctx (args ctx) (executor w)) as [[result | e] e1]; simpl; [| reflexivity].
  destruct (transformDates result); reflexivity.
Qed.

Lemma isExcludedModel_true (schema : Schema) (options : NextjsCachePluginOptions) (m : string) :
  isExcludedModel schema options m = true <->
  In m (default [] (excludeModels options))
  \/ exists attr, In attr (getModelAttributes schema m) /\ a_name attr = "@@cache.exclude".
Proof.
  unfold isExcludedModel, hasExcludeAttribute.
  destruct (includes (default [] (excludeModels options)) m) eqn:Hoption.
  - apply includes_In in Hoption. tauto.
  - assert (Hnot : ~ In m (default [] (excludeModels options))).
    { intros Hin. apply includes_In in Hin. congruence. }
    destruct (existsb _ (getModelAttributes schema m)) eqn:Hattribute.
    + apply existsb_exists in Hattribute as (attr & Hin & Hname).
      apply String.eqb_eq in Hname. split; [eauto | reflexivity].
    + split; [discriminate |]. intros [Hin | (attr & Hin & Hname)]; [contradiction |].
      assert (Hyes : existsb (fun attr => String.eqb (a_name attr) "@@cache.exclude")
                       (getModelAttributes schema m) = true).
      { apply existsb_exists. exists attr. split; [exact Hin |]. apply String.eqb_eq, Hname. }
      congruence.
Qed.

(** X13.  A query on a model that the option [excludeModels] lists or
    that carries the attribute [@@cache.exclude], and an operation that is
    none of the eight read operations, go to the executor as they are, in
    every context: [proceed] is called once with the arguments, its outcome
    is the outcome (dates are not converted), and the data cache is neither
    called nor written. *)
Theorem writes_and_excluded_models_bypass_the_cache {E : Type} (schema : Schema)
    (Date_parse : string -> option Z) (RuntimeDecimal : option (JsValue -> Completion JsValue))
    (options : NextjsCachePluginOptions) (next : NextCache)
    (ctx : QueryContext E) (w : World E) :
  In (model ctx) (default [] (excludeModels options))
  \/ (exists attr, In attr (getModelAttributes schema (model ctx))
                   /\ a_name attr = "@@cache.exclude")
  \/ ~ In (operation ctx) READ_OPERATIONS ->
  let ran := proceed ctx (args ctx) (executor w) in
  let after := onQuery schema Date_parse RuntimeDecimal options next ctx w in
  after.1 = ran.1
  /\ executor after.2 = ran.2
  /\ store after.2 = store w
  /\ calls after.2 = calls w ++ [Call_proceed (args ctx)].
Proof.
  intros Hbypass ran after. subst after ran.
  rewrite onQuery_passes_through.
  - unfold call_executor. destruct (proceed ctx (args ctx) (executor w)). repeat split.
  - destruct Hbypass as [Hoption | [Hattribute | Hwrite]].
    + left. apply isExcludedModel_true. left. exact Hoption.
    + left. apply isExcludedModel_true. right. exact Hattribute.
    + right. unfold isReadOperation.
      destruct (includes READ_OPERATIONS (operation ctx)) eqn:Hinc; [| reflexivity].
      apply includes_In in Hinc. contradiction.
Qed.

Lemma writes_and_excluded_models_bypass_the_cache_witness :
  let ctx := query_on "User" "update" (JObj [("where", JObj [("id", JStr "1")])]) in
  let w := new_world [Normal (JObj [("createdAt", JDate (Some 1705314600000));
                                    ("id", JStr "1")])] in
  let ran := proceed ctx (args ctx) (executor w) in
  let after := onQuery test_schema Date_parse_utc None no_options server_action ctx w in
  after.1 = ran.1
  /\ executor after.2 = ran.2
  /\ store after.2 = store w
  /\ calls after.2 = calls w ++ [Call_proceed (args ctx)].
Proof.
  intros ctx w.
  apply (writes_and_excluded_models_bypass_the_cache test_schema Date_parse_utc None no_options
           server_action ctx w).
  right. right. simpl. intros H.
  repeat destruct H as [H | H]; try discriminate H. exact H.
Defined.



Lemma cache_available_intro (next : NextCache) :
  import_resolves next = true -> unstable_cache_runs next = true ->
  cache_available next = true.
Proof. unfold cache_available. intros -> ->. reflexivity. Qed.

(** X15.  A read whose key has an entry in the data cache returns that
    entry thawed under the model of the read.  The executor is not called
    and keeps its state, and the cache is left as it is. *)
Theorem cache_hit_skips_the_executor {E : Type} (schema : Schema)
    (Date_parse : string -> option Z) (RuntimeDecimal : option (JsValue -> Completion JsValue))
    (options : NextjsCachePluginOptions) (next : NextCache)
    (ctx : QueryContext E) (w : World E) (entry : CacheEntry) (restored : JsValue) :
  isExcludedModel schema options (model ctx) = false ->
  isReadOperation (operation ctx) = true ->
  import_resolves next = true ->
  unstable_cache_runs next = true ->
  lookup_entry (generateCacheKey (model ctx) (operation ctx) (args ctx)
                  (client_auth ctx ≫= auth_id)) (store w) = Some entry ->
  restoreDates schema Date_parse RuntimeDecimal (entry_value entry) (model ctx)
  = Normal restored ->
  let after := onQuery schema Date_parse RuntimeDecimal options next ctx w in
  after.1 = Normal restored
  /\ executor after.2 = executor w
  /\ store after.2 = store w
  /\ calls after.2 = calls w ++ [cacheCall schema options ctx].
Proof.
  intros Hexcluded Hread Himport Hruns Hhit Hthaw after. subst after.
  rewrite (onQuery_hit schema Date_parse RuntimeDecimal options next ctx Hexcluded Hread
             (cache_available_intro next Himport Hruns) w entry Hhit).
  rewrite Hthaw. repeat split.
Qed.

Lemma cache_hit_skips_the_executor_witness :
  let ctx := query_on "Post" "findMany" (JObj []) in
  let w := {| executor := [Throw connection_lost];
              store := [cacheEntry blog_schema no_options ctx
                          (JArr [JObj [("id", JStr "p1");
                                       ("createdAt", JStr "2024-01-15T10:30:00.000Z")]])];
              calls := [] |} in
  let after := onQuery blog_schema Date_parse_utc None no_options server_action ctx w in
  after.1 = Normal (JArr [JObj [("id", JStr "p1"); ("createdAt", JDate (Some 1705314600000))]])
  /\ executor after.2 = executor w
  /\ store after.2 = store w
  /\ calls after.2 = calls w ++ [cacheCall blog_schema no_options ctx].
Proof.
  intros ctx w.
  apply (cache_hit_skips_the_executor blog_schema Date_parse_utc None no_options server_action
           ctx w
           (cacheEntry blog_schema no_options ctx
              (JArr [JObj [("id", JStr "p1"); ("createdAt", JStr "2024-01-15T10:30:00.000Z")]])));
    vm_compute; reflexivity.
Defined.

(** X16.  A read whose key has no entry calls [proceed] once, stores the
    frozen result under the key with the seconds and the tags of the read,
    and returns the frozen result thawed under the model of the read. *)
Theorem cache_miss_stores_the_frozen_result {E : Type} (schema : Schema)
    (Date_parse : string -> option Z) (RuntimeDecimal : option (JsValue -> Completion JsValue))
    (options : NextjsCachePluginOptions) (next : NextCache)
    (ctx : QueryContext E) (w : World E) (result frozen restored : JsValue) (e1 : E) :
  isExcludedModel schema options (model ctx) = false ->
  isReadOperation (operation ctx) = true ->
  import_resolves next = true ->
  unstable_cache_runs next = true ->
  lookup_entry (generateCacheKey (model ctx) (operation ctx) (args ctx)
                  (client_auth ctx ≫= auth_id)) (store w) = None ->
  proceed ctx (args ctx) (executor w) = (Normal result, e1) ->
  transformDates result = Normal frozen ->
  restoreDates schema Date_parse RuntimeDecimal frozen (model ctx) = Normal restored ->
  let after := onQuery schema Date_parse RuntimeDecimal options next ctx w in
  after.1 = Normal restored
  /\ executor after.2 = e1
  /\ store after.2 = cacheEntry schema options ctx frozen :: store w
  /\ calls after.2 = calls w ++ [cacheCall schema options ctx; Call_proceed (args ctx)].
Proof.
  intros Hexcluded Hread Himport Hruns Hmiss Hran Hfreeze Hthaw after. subst after.
  rewrite (onQuery_miss schema Date_parse RuntimeDecimal options next ctx Hexcluded Hread
             (cache_available_intro next Himport Hruns) w Hmiss).
  rewrite Hran. simpl. rewrite Hfreeze, Hthaw. simpl.
  rewrite <- app_assoc. repeat split.
Qed.

Lemma cache_miss_stores_the_frozen_result_witness :
  let ctx := query_on "Post" "findMany" (JObj []) in
  let rows := JArr [JObj [("id", JStr "p1"); ("createdAt", JDate (Some 1705314600000))]] in
  let frozen := JArr [JObj [("id", JStr "p1"); ("createdAt", JStr "2024-01-15T10:30:00.000Z")]] in
  let w := new_world [Normal rows] in
  let after := onQuery blog_schema Date_parse_utc None no_options server_action ctx w in
  after.1 = Normal rows
  /\ executor after.2 = []
  /\ store after.2 = cacheEntry blog_schema no_options ctx frozen :: store w
  /\ calls after.2 = calls w ++ [cacheCall blog_schema no_options ctx; Call_proceed (args ctx)].
Proof.
  intros ctx rows frozen w.
  apply (cache_miss_stores_the_frozen_result blog_schema Date_parse_utc None no_options
           server_action ctx w rows frozen rows []);
    vm_compute; reflexivity.
Defined.




(** X18.  When the result of a read that missed the cache holds an
    Invalid Date, freezing fails inside the cached callback, the failure is
    caught, and the query runs a second time outside the cache: the read
    ends as that second run does (with the RangeError when the result is the
    same), and nothing is stored. *)
Theorem unfreezable_result_is_queried_again {E : Type} (schema : Schema)
    (Date_parse : string -> option Z) (RuntimeDecimal : option (JsValue -> Completion JsValue))
    (options : NextjsCachePluginOptions) (next : NextCache)
    (ctx : QueryContext E) (w : World E) (result : JsValue) (e1 : E) :
  isExcludedModel schema options (model ctx) = false ->
  isReadOperation (operation ctx) = true ->
  import_resolves next = true ->
  unstable_cache_runs next = true ->
  lookup_entry (generateCacheKey (model ctx) (operation ctx) (args ctx)
                  (client_auth ctx ≫= auth_id)) (store w) = None ->
  proceed ctx (args ctx) (executor w) = (Normal result, e1) ->
  valid_dates result = false ->
  let again := proceed ctx (args ctx) e1 in
  let after := onQuery schema Date_parse RuntimeDecimal options next ctx w in
  after.1 = cbind again.1 (fun result' =>
              cbind (transformDates result') (fun transformed =>
                restoreDates schema Date_parse RuntimeDecimal transformed (model ctx)))
  /\ (again.1 = Normal result -> after.1 = Throw (RangeError "Invalid time value"))
  /\ executor after.2 = again.2
  /\ store after.2 = store w
  /\ calls after.2
     = calls w ++ [cacheCall schema options ctx; Call_proceed (args ctx);
                   Call_proceed (args ctx)].
Proof.
  intros Hexcluded Hread Himport Hruns Hmiss Hran Hinvalid again after. subst after again.
  pose proof (transformDates_fails_on_invalid_dates result) as Hfreeze.
  destruct (transformDates result) as [frozen | e] eqn:Hfrozen;
    [congruence | destruct Hfreeze as [_ ->]].
  rewrite (onQuery_miss schema Date_parse RuntimeDecimal options next ctx Hexcluded Hread
             (cache_available_intro next Himport Hruns) w Hmiss).
  rewrite Hran. simpl. rewrite Hfrozen. rewrite directQuery_outcome. simpl.
  split; [reflexivity |]. split.
  - intros ->. simpl. rewrite Hfrozen. reflexivity.
  - rewrite <- !app_assoc. repeat split.
Qed.

Lemma unfreezable_result_is_queried_again_witness :
  let ctx := query_on "Post" "findMany" (JObj []) in
  let rows := JArr [JObj [("id", JStr "p1"); ("createdAt", JDate None)]] in
  let w := new_world [Normal rows; Normal rows] in
  let again := proceed ctx (args ctx) [Normal rows] in
  let after := onQuery blog_schema Date_parse_utc None no_options server_action ctx w in
  after.1 = cbind again.1 (fun result' =>
              cbind (transformDates result') (fun transformed =>
                restoreDates blog_schema Date_parse_utc None transformed (model ctx)))
  /\ (again.1 = Normal rows -> after.1 = Throw (RangeError "Invalid time value"))
  /\ executor after.2 = again.2
  /\ store after.2 = store w
  /\ calls after.2
     = calls w ++ [cacheCall blog_schema no_options ctx; Call_proceed (args ctx);
                   Call_proceed (args ctx)].
Proof.
  intros ctx rows w.
  apply (unfreezable_result_is_queried_again blog_schema Date_parse_utc None no_options
           server_action ctx w rows [Normal rows]);
    vm_compute; reflexivity.
Defined.




(** ** Invalidation in any context *)

Lemma invalidateTag_outcome {E : Type} (next : NextCache) (tag : string) (w : World E) :
  invalidateTag next tag w = (Normal tt, add_calls (invalidations next tag) w).
Proof.
  unfold invalidateTag, try_catch, abind, import_next_cache, updateTag, revalidateTag,
    invalidations, ret, lift, record_call, add_calls.
  destruct (import_resolves next), (updateTag_runs next), (revalidateTag_runs next);
    simpl; rewrite ?app_nil_r; destruct w; reflexivity.
Qed.

Lemma for_of_invalidateTag {E A : Type} (next : NextCache) (keep : A -> bool)
    (tagOf : A -> string) (l : list A) (w : World E) :
  for_of l (fun x => if keep x then invalidateTag next (tagOf x) else ret tt) w
  = (Normal tt,
     add_calls (flat_map (invalidations next) (map tagOf (List.filter keep l))) w).
Proof.
  revert w. induction l as [| x l IH]; intros w; simpl.
  - unfold ret. rewrite add_calls_nil. reflexivity.
  - unfold abind at 1. destruct (keep x); simpl.
    + rewrite invalidateTag_outcome, IH, add_calls_add_calls. reflexivity.
    + unfold ret at 1. apply IH.
Qed.

Lemma invalidateRelatedModelCache_outcome {E : Type} (next : NextCache)
    (relatedModel : string) (w : World E) :
  invalidateRelatedModelCache next relatedModel w
  = (Normal tt, add_calls (invalidations next (listTag relatedModel)) w).
Proof.
  unfold invalidateRelatedModelCache, try_catch.
  fold (listTag relatedModel). rewrite invalidateTag_outcome. reflexivity.
Qed.

Lemma for_of_invalidateRelated {E : Type} (next : NextCache) (keep : string -> bool)
    (l : list string) (w : World E) :
  for_of l (fun relatedModel =>
              if keep relatedModel then invalidateRelatedModelCache next relatedModel
              else ret tt) w
  = (Normal tt,
     add_calls (flat_map (invalidations next) (map listTag (List.filter keep l))) w).
Proof.
  revert w. induction l as [| x l IH]; intros w; simpl.
  - unfold ret. rewrite add_calls_nil. reflexivity.
  - unfold abind at 1. destruct (keep x); simpl.
    + rewrite invalidateRelatedModelCache_outcome, IH, add_calls_add_calls. reflexivity.
    + unfold ret at 1. apply IH.
Qed.

(** The hook in any context. *)
Lemma afterEntityMutation_outcome {E : Type} (schema : Schema) (Date_toString : Z -> string)
    (options : NextjsCachePluginOptions) (next : NextCache)
    (mutation : MutationArgs E) (w : World E) :
  let m := mutated_model mutation in
  let loaded := loadAfterMutationEntities mutation (executor w) in
  afterEntityMutation schema Date_toString options next mutation w
  = (Normal tt,
     {| executor := loaded.2; store := store w;
        calls := calls w
                 ++ invalidations next (listTag m) ++ [Call_loadEntities]
                 ++ flat_map (invalidations next) (entityTags Date_toString m (loadedRows loaded.1))
                 ++ flat_map (invalidations next) (relatedListTags schema options m) |}).
Proof.
  intros m loaded. subst loaded.
  unfold afterEntityMutation. fold m.
  unfold abind at 1.
  assert (Hrelated : forall w0 : World E,
             for_of (getRelatedModels schema m)
               (fun relatedModel =>
                  if negb (isExcludedModel schema options relatedModel)
                  then invalidateRelatedModelCache next relatedModel
                  else ret tt) w0
             = (Normal tt,
                add_calls (flat_map (invalidations next) (relatedListTags schema options m)) w0)).
  { intros w0. unfold relatedListTags.
    apply (for_of_invalidateRelated next (fun r => negb (isExcludedModel schema options r))). }
  unfold invalidateCacheForModel, try_catch, abind.
  fold (listTag m). rewrite invalidateTag_outcome.
  unfold call_executor. simpl.
  destruct (loadAfterMutationEntities mutation (executor w)) as [outcome e'].
  destruct outcome as [entities | e]; simpl.
  - destruct entities; simpl; unfold ret; rewrite ?Hrelated; unfold add_calls; simpl;
      rewrite <- ?app_assoc; try reflexivity.
    change (fun entity : JsValue =>
              if truthy entity && typeof_object entity && has_property "id" entity
              then invalidateTag next
                     (String_toLowerCase m +:+ ":" +:+ ToString Date_toString (get entity "id"))
              else (fun w0 : World E => (Normal tt, w0)))
      with (fun entity : JsValue =>
              if carries_id entity
              then invalidateTag next (entityTag Date_toString m entity)
              else @ret E unit tt).
    rewrite (for_of_invalidateTag next carries_id (entityTag Date_toString m)).
    rewrite Hrelated. unfold add_calls, entityTags. simpl. rewrite <- !app_assoc. reflexivity.
  - rewrite Hrelated. unfold add_calls. simpl. rewrite <- !app_assoc. reflexivity.
Qed.

Lemma invalidatedTags_invalidations (next : NextCache) (tags : list string) :
  invalidatedTags (flat_map (invalidations next) tags)
  = if invalidation_available next then tags else [].
Proof.
  unfold invalidatedTags, invalidation_available, invalidations.
  induction tags as [| tag tags IH]; simpl.
  - destruct (_ && _); reflexivity.
  - rewrite omap_app, IH.
    destruct (import_resolves next), (updateTag_runs next), (revalidateTag_runs next);
      reflexivity.
Qed.

Lemma invalidatedTags_app (cs1 cs2 : list Call) :
  invalidatedTags (cs1 ++ cs2) = invalidatedTags cs1 ++ invalidatedTags cs2.
Proof. apply omap_app. Qed.

(** X21.  [invalidateTag] never throws and never touches the executor.
    It makes one call of [updateTag] where that runs; else one call of
    [revalidateTag] with the profile [max] where that runs; else, or when
    [next/cache] does not import, no call at all. *)
Theorem invalidateTag_prefers_updateTag {E : Type} (next : NextCache) (tag : string)
    (w : World E) :
  let after := invalidateTag next tag w in
  after.1 = Normal tt
  /\ executor after.2 = executor w
  /\ calls after.2
     = calls w
       ++ (if negb (import_resolves next) then []
           else if updateTag_runs next then [Call_updateTag tag]
           else if revalidateTag_runs next then [Call_revalidateTag tag "max"]
           else []).
Proof.
  intros after. subst after. rewrite invalidateTag_outcome. unfold invalidations. simpl.
  repeat split. destruct (import_resolves next); reflexivity.
Qed.

(** X22.  In every context (the module importing or not, each primitive
    running or throwing, the row loader resolving or rejecting) the hook
    resolves and runs the row loader once.  Where a tag can be invalidated
    it invalidates the list tag of the model, then the entity tag of every
    loaded row that carries an id, then the list tag of every related model
    that is not excluded, each by one call; elsewhere it invalidates
    nothing.  The mutated model itself is not checked for exclusion. *)
Theorem afterEntityMutation_never_fails {E : Type} (schema : Schema)
    (Date_toString : Z -> string) (options : NextjsCachePluginOptions) (next : NextCache)
    (mutation : MutationArgs E) (w : World E) :
  let m := mutated_model mutation in
  let loaded := loadAfterMutationEntities mutation (executor w) in
  let after := afterEntityMutation schema Date_toString options next mutation w in
  after.1 = Normal tt
  /\ executor after.2 = loaded.2
  /\ calls after.2
     = calls w
       ++ invalidations next (listTag m) ++ [Call_loadEntities]
       ++ flat_map (invalidations next) (entityTags Date_toString m (loadedRows loaded.1))
       ++ flat_map (invalidations next) (relatedListTags schema options m)
  /\ invalidatedTags (calls after.2)
     = invalidatedTags (calls w)
       ++ (if invalidation_available next
           then [listTag m] ++ entityTags Date_toString m (loadedRows loaded.1)
                ++ relatedListTags schema options m
           else []).
Proof.
  intros m loaded after. subst after.
  rewrite afterEntityMutation_outcome. fold m loaded. cbn [fst snd calls executor].
  split; [reflexivity |]. split; [reflexivity |]. split; [reflexivity |].
  rewrite !invalidatedTags_app, !invalidatedTags_invalidations.
  replace (invalidations next (listTag m)) with (flat_map (invalidations next) [listTag m])
    by (simpl; apply app_nil_r).
  rewrite invalidatedTags_invalidations.
  destruct (invalidation_available next); reflexivity.
Qed.

(** X23.  Every tag the hook invalidates is the list tag of the mutated
    model, the model name in lower case followed by the id of a loaded row,
    or the list tag of a related model that is not excluded.  The tags that
    [@@cache.tags] declares and the tags of a custom generator are not
    consulted. *)
Theorem invalidated_tags_are_default_tags {E : Type} (schema : Schema)
    (Date_toString : Z -> string) (options : NextjsCachePluginOptions) (next : NextCache)
    (mutation : MutationArgs E) (w : World E) :
  let m := mutated_model mutation in
  let rows := loadedRows (loadAfterMutationEntities mutation (executor w)).1 in
  let after := afterEntityMutation schema Date_toString options next mutation w in
  exists added,
    invalidatedTags (calls after.2) = invalidatedTags (calls w) ++ added
    /\ forall tag, In tag added ->
         tag = String_toLowerCase m +:+ ":list"
         \/ (exists row, In row rows /\ carries_id row = true
                         /\ tag = String_toLowerCase m +:+ ":"
                                  +:+ ToString Date_toString (get row "id"))
         \/ (exists relatedModel,
               In relatedModel (getRelatedModels schema m)
               /\ isExcludedModel schema options relatedModel = false
               /\ tag = String_toLowerCase relatedModel +:+ ":list").
Proof.
  intros m rows after. subst after.
  rewrite afterEntityMutation_outcome. fold m rows. cbn [fst snd calls executor].
  rewrite !invalidatedTags_app, !invalidatedTags_invalidations.
  replace (invalidations next (listTag m)) with (flat_map (invalidations next) [listTag m])
    by (simpl; apply app_nil_r).
  rewrite invalidatedTags_invalidations.
  eexists. split; [reflexivity |].
  intros tag Hin.
  destruct (invalidation_available next); simpl in Hin; [| contradiction].
  destruct Hin as [<- | Hin]; [left; reflexivity |].
  apply in_app_or in Hin as [Hin | Hin].
  - right. left. unfold entityTags in Hin. apply in_map_iff in Hin as (row & <- & Hrow).
    apply filter_In in Hrow as [Hrow Hid]. exists row. auto.
  - right. right. unfold relatedListTags in Hin. apply in_map_iff in Hin as (r & <- & Hr).
    apply filter_In in Hr as [Hr Hex]. apply negb_true_iff in Hex. exists r. auto.
Qed.

Lemma digits_fuel_not_empty (fuel : nat) (n : Z) (acc : string) :
  acc <> "" -> digits_fuel fuel n acc <> "".
Proof.
  revert n acc. induction fuel as [| fuel IH]; intros n acc Hacc; simpl; [exact Hacc |].
  destruct (n <? 10); [discriminate |]. apply IH. discriminate.
Qed.

Lemma Number_toString_not_empty (n : Z) : Number_toString n <> "".
Proof.
  unfold Number_toString.
  assert (Hdigits : forall fuel a, digits_fuel (S fuel) a "" <> "").
  { intros fuel a. simpl. destruct (a <? 10); [discriminate |].
    apply digits_fuel_not_empty. discriminate. }
  destruct (n <? 0); [discriminate | apply Hdigits].
Qed.

Lemma extractIdFromArgs_Some (queryArgs : JsValue) (i : string) :
  extractIdFromArgs queryArgs = Some i <->
  is_object queryArgs = true /\ is_object (get queryArgs "where") = true
  /\ (get (get queryArgs "where") "id" = JStr i
      \/ exists n, get (get queryArgs "where") "id" = JNum n /\ i = Number_toString n).
Proof.
  unfold extractIdFromArgs, is_object.
  destruct (truthy queryArgs), (typeof_object queryArgs); simpl;
    try (split; [discriminate | intros [[=] _]]).
  destruct (truthy (get queryArgs "where")), (typeof_object (get queryArgs "where")); simpl;
    try (split; [discriminate | intros (_ & [=] & _)]).
  destruct (get (get queryArgs "where") "id");
    try (split; [discriminate | intros (_ & _ & [[=] | (n0 & [=] & _)])]).
  - split.
    + intros [= <-]. eauto 6.
    + intros (_ & _ & [[=] | (n0 & [= <-] & ->)]). reflexivity.
  - split.
    + intros [= <-]. auto.
    + intros (_ & _ & [[= <-] | (n0 & [=] & _)]). reflexivity.
Qed.

(** Without a generator, the tags of a model for a non-empty id end with
    the entity tag. *)
Lemma getTagsForModel_entity_tag (schema : Schema) (options : NextjsCachePluginOptions)
    (m i : string) :
  customTagGenerator options = None -> i <> "" ->
  In (String_toLowerCase m +:+ ":" +:+ i) (getTagsForModel schema options m (Some i)).
Proof.
  intros Hgen Hi. apply truthy_JStr in Hi.
  unfold getTagsForModel, generateCacheTags. rewrite Hgen, Hi.
  destruct (getCustomTags schema m) as [[| t ts] |]; apply in_or_app; right; left; reflexivity.
Qed.

(** X24.  Without a tag generator, a read whose [where.id] is a non-empty
    string or a number is tagged with the entity tag that a mutation
    invalidates for a loaded row with that id: the id is written the same
    way on both sides. *)
Theorem read_by_id_meets_invalidation (schema : Schema) (options : NextjsCachePluginOptions)
    (Date_toString : Z -> string) (m : string) (queryArgs row : JsValue) :
  customTagGenerator options = None ->
  is_object queryArgs = true ->
  is_object (get queryArgs "where") = true ->
  carries_id row = true ->
  get row "id" = get (get queryArgs "where") "id" ->
  match get row "id" with
  | JStr s => s <> ""
  | JNum _ => True
  | _ => False
  end ->
  let tag := String_toLowerCase m +:+ ":" +:+ ToString Date_toString (get row "id") in
  In tag (readTags schema options m queryArgs)
  /\ forall (E : Type) (next : NextCache) (mutation : MutationArgs E) (w : World E),
       mutated_model mutation = m ->
       invalidation_available next = true ->
       In row (loadedRows (loadAfterMutationEntities mutation (executor w)).1) ->
       In tag (invalidatedTags
                 (calls (afterEntityMutation schema Date_toString options next mutation w).2)).
Proof.
  intros Hgen Hargs Hwhere Hcarries Hsame Hid tag. split.
  - rewrite readTags_eq. apply in_or_app. left.
    assert (Hextract : extractIdFromArgs queryArgs = Some (ToString Date_toString (get row "id"))
                       /\ ToString Date_toString (get row "id") <> "").
    { rewrite Hsame in *.
      destruct (get (get queryArgs "where") "id") as [| | | n | s | | | |] eqn:Hwid;
        try contradiction.
      - split; [| apply Number_toString_not_empty].
        apply extractIdFromArgs_Some. eauto 6.
      - split; [| exact Hid]. apply extractIdFromArgs_Some. auto. }
    destruct Hextract as [-> Hne]. apply getTagsForModel_entity_tag; assumption.
  - intros E next mutation w Hm Havailable Hrow.
    rewrite afterEntityMutation_outcome. cbn [fst snd calls].
    rewrite !invalidatedTags_app, !invalidatedTags_invalidations, Havailable.
    apply in_or_app. right. apply in_or_app. right. apply in_or_app. right.
    apply in_or_app. left. rewrite Hm. unfold entityTags.
    apply (in_map (entityTag Date_toString m)), filter_In. auto.
Qed.

Lemma read_by_id_meets_invalidation_witness :
  let tag :=
    String_toLowerCase "User" +:+ ":"
    +:+ ToString host_date_text (get (JObj [("id", JNum 42); ("name", JStr "Ann")]) "id") in
  In tag (readTags test_schema no_options "User" (JObj [("where", JObj [("id", JNum 42)])]))
  /\ forall (E : Type) (next : NextCache) (mutation : MutationArgs E) (w : World E),
       mutated_model mutation = "User" ->
       invalidation_available next = true ->
       In (JObj [("id", JNum 42); ("name", JStr "Ann")])
          (loadedRows (loadAfterMutationEntities mutation (executor w)).1) ->
       In tag (invalidatedTags
                 (calls (afterEntityMutation test_schema host_date_text no_options next
                           mutation w).2)).
Proof.
  apply (read_by_id_meets_invalidation test_schema no_options host_date_text "User"
           (JObj [("where", JObj [("id", JNum 42)])])
           (JObj [("id", JNum 42); ("name", JStr "Ann")]));
    reflexivity.
Defined.

(** X25.  With the default tags, every read of a model carries the list
    tag of the model, and a mutation of the model invalidates every tag of
    the read but the entity tag of its id: the list tag of the model and
    the list tags the read was widened with. *)
Theorem mutation_invalidates_default_reads (schema : Schema) (options : NextjsCachePluginOptions)
    (m : string) (queryArgs : JsValue) :
  customTagGenerator options = None ->
  getCustomTags schema m = None \/ getCustomTags schema m = Some [] ->
  In (String_toLowerCase m +:+ ":list") (readTags schema options m queryArgs)
  /\ forall (E : Type) (Date_toString : Z -> string) (next : NextCache)
            (mutation : MutationArgs E) (w : World E),
       mutated_model mutation = m ->
       invalidation_available next = true ->
       let invalidated :=
         invalidatedTags
           (calls (afterEntityMutation schema Date_toString options next mutation w).2) in
       In (String_toLowerCase m +:+ ":list") invalidated
       /\ forall tag, In tag (readTags schema options m queryArgs) ->
            In tag invalidated
            \/ exists i, extractIdFromArgs queryArgs = Some i
                         /\ tag = String_toLowerCase m +:+ ":" +:+ i.
Proof.
  intros Hgen Hcustom.
  assert (Hmodel : forall id, getTagsForModel schema options m id = generateCacheTags m id None).
  { intros id. unfold getTagsForModel. rewrite Hgen. destruct Hcustom as [-> | ->]; reflexivity. }
  split.
  - rewrite readTags_eq, Hmodel. apply in_or_app. left.
    unfold generateCacheTags. destruct (extractIdFromArgs queryArgs) as [i |];
      [destruct (truthy (JStr i)) |]; left; reflexivity.
  - intros E Date_toString next mutation w Hm Havailable invalidated.
    assert (Hinvalidated : forall tag,
               tag = listTag m \/ In tag (relatedListTags schema options m) ->
               In tag invalidated).
    { intros tag Htag. subst invalidated.
      rewrite afterEntityMutation_outcome. cbn [fst snd calls].
      replace (invalidations next (listTag (mutated_model mutation)))
        with (flat_map (invalidations next) [listTag (mutated_model mutation)])
        by (simpl; apply app_nil_r).
      rewrite !invalidatedTags_app, !invalidatedTags_invalidations, Havailable, Hm.
      apply in_or_app. right.
      destruct Htag as [-> | Htag]; [left; reflexivity |].
      apply in_or_app. right. apply in_or_app. right. apply in_or_app. right. exact Htag. }
    split; [apply Hinvalidated; left; reflexivity |].
    intros tag. rewrite readTags_eq, Hmodel. intros Hin.
    apply in_app_or in Hin as [Hin | Hin].
    + unfold generateCacheTags in Hin.
      destruct (extractIdFromArgs queryArgs) as [i |].
      * destruct (truthy (JStr i)); simpl in Hin.
        -- destruct Hin as [<- | [<- | []]]; [left; apply Hinvalidated; left; reflexivity |].
           right. exists i. auto.
        -- destruct Hin as [<- | []]. left. apply Hinvalidated. left. reflexivity.
      * destruct Hin as [<- | []]. left. apply Hinvalidated. left. reflexivity.
    + left. apply Hinvalidated. right. eapply widening_is_related, Hin.
Qed.

Lemma mutation_invalidates_default_reads_witness :
  In (String_toLowerCase "Post" +:+ ":list")
     (readTags test_schema no_options "Post" (JObj [("include", JObj [("author", JBool true)])]))
  /\ forall (E : Type) (Date_toString : Z -> string) (next : NextCache)
            (mutation : MutationArgs E) (w : World E),
       mutated_model mutation = "Post" ->
       invalidation_available next = true ->
       let invalidated :=
         invalidatedTags
           (calls (afterEntityMutation test_schema Date_toString no_options next mutation w).2) in
       In (String_toLowerCase "Post" +:+ ":list") invalidated
       /\ forall tag,
            In tag (readTags test_schema no_options "Post"
                      (JObj [("include", JObj [("author", JBool true)])])) ->
            In tag invalidated
            \/ exists i,
                 extractIdFromArgs (JObj [("include", JObj [("author", JBool true)])]) = Some i
                 /\ tag = String_toLowerCase "Post" +:+ ":" +:+ i.
Proof.
  apply (mutation_invalidates_default_reads test_schema no_options "Post"
           (JObj [("include", JObj [("author", JBool true)])])).
  - reflexivity.
  - left. vm_compute. reflexivity.
Defined.
